(** * jarvis-rag: the retrieval-augmented chat pipeline

    A shallow embedding of the Python sources
      - [backend/rag/url_tools.py]   (URL extraction, page ingestion),
      - [backend/rag/graph_chat.py]  (the classify / ingest / rag_query graph),
      - [backend/main.py]            (the /chat endpoint),
    followed by the properties the specification states about them.

    Conventions.
      - A Python [str] is a [string]; a character is a code point below 256.
      - Code that raises returns [Raise e]; code that mutates process-wide
        objects ([_ingested_urls], the Chroma collection) or talks to the
        network runs in the monad [M] over a [World].
      - Third-party collaborators (the HTTP client, BeautifulSoup, the text
        splitter, Chroma, the chat model, [urlparse], [md5]) are fields of
        an environment record [Env]; every theorem holds for all of them.
      - Distances are floats in the source; finite floats are rationals and
        [<] on them is the order of [Q], which is what the model uses.
      - [get_llm()] and [get_vectorstore()] give the cached object or
        raise the error of building it, the same way throughout a request;
        the graph of [build_graph] is taken as compiled; [print] calls and
        logging are not part of the model. *)

From Equations Require Import Equations.
From Stdlib Require Import Ascii String DecimalString QArith.
From stdpp Require Import base option list gmap strings.

Close Scope Q_scope.
Open Scope string_scope.

(* ===================================================================== *)
(** * Python runtime: exceptions and [str] methods                        *)
(* ===================================================================== *)

Module Py.

(** The exception classes the handlers of the program tell apart. *)
Inductive exn_class :=
| RequestException          (* requests.exceptions.RequestException *)
| ValueError
| Exception                 (* a plain Exception(...) *)
| OtherError (name : string).

Record exn := mk_exn { exn_cls : exn_class; exn_str : string }.

Inductive result (A : Type) :=
| Ok (a : A)
| Raise (e : exn).
Arguments Ok {A} a.
Arguments Raise {A} e.

(** [isinstance(e, ValueError)] and [isinstance(e, RequestException)]. *)
Definition is_ValueError (e : exn) : bool :=
  match exn_cls e with ValueError => true | _ => false end.

Definition is_RequestException (e : exn) : bool :=
  match exn_cls e with RequestException => true | _ => false end.

Definition code (c : ascii) : nat := nat_of_ascii c.

(** [c.isspace()], also the class [\s] of [re] on [str] patterns. *)
Definition isspace (c : ascii) : bool :=
  let n := code c in
  (((9 <=? n) && (n <=? 13)) || ((28 <=? n) && (n <=? 32))
   || (n =? 133) || (n =? 160))%nat.

(** Line boundaries of [str.splitlines]. *)
Definition is_linebreak (c : ascii) : bool :=
  let n := code c in
  (((10 <=? n) && (n <=? 13)) || ((28 <=? n) && (n <=? 30)) || (n =? 133))%nat.

(** [c.lower()] for one character. *)
Definition lower_char (c : ascii) : ascii :=
  let n := code c in
  if (((65 <=? n) && (n <=? 90))
      || ((192 <=? n) && (n <=? 222) && negb (n =? 215)))%nat
  then ascii_of_nat (n + 32) else c.

Fixpoint lower (s : string) : string :=
  match s with
  | EmptyString => EmptyString
  | String c t => String (lower_char c) (lower t)
  end.

(** [s.startswith(p)]. *)
Fixpoint startswith (p s : string) : bool :=
  match p, s with
  | EmptyString, _ => true
  | String a p', String b s' => if Ascii.eqb a b then startswith p' s' else false
  | String _ _, EmptyString => false
  end.

(** [sub in s]. *)
Fixpoint contains (sub s : string) : bool :=
  startswith sub s ||
  match s with
  | EmptyString => false
  | String _ t => contains sub t
  end.

Fixpoint lstrip (s : string) : string :=
  match s with
  | EmptyString => EmptyString
  | String c t => if isspace c then lstrip t else s
  end.

Fixpoint rstrip (s : string) : string :=
  match s with
  | EmptyString => EmptyString
  | String c t =>
      match rstrip t with
      | EmptyString => if isspace c then EmptyString else String c EmptyString
      | r => String c r
      end
  end.

Definition strip (s : string) : string := rstrip (lstrip s).

(** [s.splitlines()]: [cur] is the line being read. *)
Fixpoint splitlines_from (cur s : string) : list string :=
  match s with
  | EmptyString => match cur with EmptyString => [] | _ => [cur] end
  | String c t =>
      if is_linebreak c then
        match code c, t with
        | 13, String c' t' =>
            if (code c' =? 10)%nat then cur :: splitlines_from EmptyString t'
            else cur :: splitlines_from EmptyString t
        | _, _ => cur :: splitlines_from EmptyString t
        end
      else splitlines_from (cur +:+ String c EmptyString) t
  end.

Definition splitlines (s : string) : list string := splitlines_from EmptyString s.

(** [sep.join(parts)]. *)
Fixpoint join (sep : string) (parts : list string) : string :=
  match parts with
  | [] => EmptyString
  | [p] => p
  | p :: rest => p +:+ sep +:+ join sep rest
  end.

(** [str(n)] for a non-negative integer. *)
Definition str_of_nat (n : nat) : string := NilZero.string_of_uint (Nat.to_uint n).

(** Truthiness of a [str] and of a [list]. *)
Definition truthy_str (s : string) : bool :=
  match s with EmptyString => false | _ => true end.

Definition truthy_list {A} (l : list A) : bool :=
  match l with [] => false | _ => true end.

Definition nl : string := String (ascii_of_nat 10) EmptyString.
Definition dquote : string := String (ascii_of_nat 34) EmptyString.

End Py.

Import Py.

(* ===================================================================== *)
(** * Collaborators and the process-wide state                            *)
(* ===================================================================== *)

Module Lib.

(** The metadata dict of a LangChain [Document]; the four keys are the
    ones [ingest_url] writes, each absent from a document that some
    other writer put into the collection. *)
Record Metadata := {
  md_source : option string;        (* "source" *)
  md_url_hash : option string;      (* "url_hash" *)
  md_chunk_index : option nat;      (* "chunk_index" *)
  md_total_chunks : option nat      (* "total_chunks" *)
}.

Record Document := { page_content : string; metadata : Metadata }.

(** What [urlparse] returns, as far as [extract_urls] reads it. *)
Record ParseResult := { scheme : string; netloc : string }.

(** The Chroma store object, once it is built: the three methods the
    program calls on it. *)
Record Store := {
  (** [add_documents]: [None] when the batch is stored *)
  store_add_documents : list Document -> list Document -> option exn;
  (** [persist] *)
  store_persist : list Document -> option exn;
  (** [similarity_search_with_score(query, k)] *)
  store_search : list Document -> string -> nat -> result (list (Document * Q))
}.

(** The chat model object, once it is built: [invoke(prompt).content],
    answering according to the prompts sent before. *)
Definition Model : Type := list string -> string -> result string.

(** The collaborators. The network ones answer according to what was
    asked of them before (the log), the local ones according to the
    collection they are given. The model and the store are the cached
    objects of the process: what [get_llm()] and [get_vectorstore()]
    give during a request, the object or the error of building it;
    building is taken to end the same way each time a request tries it. *)
Record Env := {
  (** [hashlib.md5(s.encode()).hexdigest()] *)
  md5_hexdigest : string -> string;
  (** [urllib.parse.urlparse] *)
  urlparse : string -> result ParseResult;
  (** [requests.get(url, headers=..., timeout=15)] then
      [raise_for_status()]; the value is [resp.text] *)
  requests_get : list string -> string -> result string;
  (** [BeautifulSoup(html, "lxml")], the listed tags decomposed, then
      [get_text(separator="\n", strip=True)] *)
  soup_get_text : string -> result string;
  (** [RecursiveCharacterTextSplitter(chunk_size, chunk_overlap,
      length_function=len, separators).split_text] *)
  split_text : nat -> nat -> list string -> string -> list string;
  (** [get_vectorstore()]: the [Chroma(...)] object of retriever.py *)
  the_vectorstore : result Store;
  (** [get_llm()]: the [ChatGoogleGenerativeAI(...)] object *)
  the_llm : result Model;
  (** [os.getenv("RELEVANCE_THRESHOLD")], already read as a number *)
  env_RELEVANCE_THRESHOLD : option Q
}.

(** [get_vectorstore().add_documents(docs)]: it raises when the store
    cannot be obtained, and when the store refuses the batch. *)
Definition chroma_add_documents (E : Env) (coll docs : list Document) : option exn :=
  match the_vectorstore E with
  | Ok vectordb => store_add_documents vectordb coll docs
  | Raise e => Some e
  end.

(** [get_vectorstore().persist()] *)
Definition chroma_persist (E : Env) (coll : list Document) : option exn :=
  match the_vectorstore E with
  | Ok vectordb => store_persist vectordb coll
  | Raise e => Some e
  end.

(** [get_vectorstore().similarity_search_with_score(query, k)] *)
Definition chroma_search (E : Env) (coll : list Document) (query : string) (k : nat)
  : result (list (Document * Q)) :=
  match the_vectorstore E with
  | Ok vectorstore => store_search vectorstore coll query k
  | Raise e => Raise e
  end.

(** [get_llm().invoke(prompt).content] *)
Definition llm_complete (E : Env) (log : list string) (prompt : string) : result string :=
  match the_llm E with
  | Ok llm => llm log prompt
  | Raise e => Raise e
  end.

(** Process-wide mutable state and the traffic sent out so far (most
    recent first). *)
Record World := {
  _ingested_urls : gset string;
  collection : list Document;
  fetch_log : list string;
  llm_log : list string
}.

Definition M (A : Type) : Type := World -> result A * World.

Definition ret {A} (a : A) : M A := fun w => (Ok a, w).

Definition raise {A} (e : exn) : M A := fun w => (Raise e, w).

Definition bind {A B} (m : M A) (k : A -> M B) : M B :=
  fun w =>
    match m w with
    | (Ok a, w') => k a w'
    | (Raise e, w') => (Raise e, w')
    end.

(** [try: m except Exception as e: h e]. Effects of [m] up to the
    point of failure stay. *)
Definition try_except {A} (m : M A) (h : exn -> M A) : M A :=
  fun w =>
    match m w with
    | (Ok a, w') => (Ok a, w')
    | (Raise e, w') => h e w'
    end.

Definition lift {A} (r : result A) : M A := fun w => (r, w).

Definition get_world : M World := fun w => (Ok w, w).

Declare Scope py_scope.
Delimit Scope py_scope with py.
Notation "x <- c1 ;; c2" := (bind c1 (fun x => c2))
  (at level 100, c1 at next level, right associativity) : py_scope.
Notation "c1 ;;; c2" := (bind c1 (fun _ => c2))
  (at level 100, right associativity) : py_scope.
Open Scope py_scope.

Section Primitives.
Variable E : Env.

(** [get_llm()] and [get_vectorstore()]: the cached object, or the
    error of building it. *)
Definition get_llm : M Model := lift (the_llm E).

Definition get_vectorstore : M Store := lift (the_vectorstore E).

(** One HTTP request: logged whether it succeeds or not. *)
Definition http_get (url : string) : M string :=
  fun w =>
    (requests_get E (fetch_log w) url,
     {| _ingested_urls := _ingested_urls w; collection := collection w;
        fetch_log := url :: fetch_log w; llm_log := llm_log w |}).

(** [vectordb.add_documents(docs)]: the batch is appended, or the
    call raises and stores nothing. *)
Definition add_documents (docs : list Document) : M unit :=
  fun w =>
    match chroma_add_documents E (collection w) docs with
    | None =>
        (Ok tt,
         {| _ingested_urls := _ingested_urls w; collection := collection w ++ docs;
            fetch_log := fetch_log w; llm_log := llm_log w |})
    | Some e => (Raise e, w)
    end.

(** [vectordb.persist()] *)
Definition persist : M unit :=
  fun w =>
    match chroma_persist E (collection w) with
    | None => (Ok tt, w)
    | Some e => (Raise e, w)
    end.

(** [vectorstore.similarity_search_with_score(query, k=k)] *)
Definition similarity_search_with_score (query : string) (k : nat)
  : M (list (Document * Q)) :=
  fun w => (chroma_search E (collection w) query k, w).

(** [vectorstore.similarity_search(query, k=k)], what a retriever
    made by [as_retriever(search_kwargs={"k": k})] calls: the same
    search with the scores dropped. *)
Definition similarity_search (query : string) (k : nat) : M (list Document) :=
  docs_and_scores <- similarity_search_with_score query k ;;
  ret (map fst docs_and_scores).

(** [llm.invoke(prompt).content]: logged whether it succeeds or not. *)
Definition llm_invoke (prompt : string) : M string :=
  fun w =>
    (llm_complete E (llm_log w) prompt,
     {| _ingested_urls := _ingested_urls w; collection := collection w;
        fetch_log := fetch_log w; llm_log := prompt :: llm_log w |}).

(** [_ingested_urls.add(h)] *)
Definition ingested_add (h : string) : M unit :=
  fun w =>
    (Ok tt,
     {| _ingested_urls := {[h]} ∪ _ingested_urls w; collection := collection w;
        fetch_log := fetch_log w; llm_log := llm_log w |}).

End Primitives.

End Lib.

Import Lib.

(* ===================================================================== *)
(** * backend/rag/retriever.py                                            *)
(* ===================================================================== *)

Module Retriever.

(** [get_retriever(k=5)]: [get_vectorstore().as_retriever(
    search_kwargs={"k": k})], as the function that fetches for a
    query. *)
Definition get_retriever (E : Env) (k : nat) : string -> M (list Document) :=
  fun query => similarity_search E query k.

End Retriever.

(* ===================================================================== *)
(** * backend/rag/url_tools.py                                            *)
(* ===================================================================== *)

Module UrlTools.

(** ** [URL_PATTERN = re.compile(r"https?://\S+")] *)

(** [s] without the prefix [p], when it has it. *)
Fixpoint strip_prefix (p s : string) : option string :=
  match p, s with
  | EmptyString, _ => Some s
  | String a p', String b s' => if Ascii.eqb a b then strip_prefix p' s' else None
  | String _ _, EmptyString => None
  end.

(** The greedy [\S*]: the longest run of non-space characters at the
    start of [s], and what follows it. *)
Fixpoint span_nonspace (s : string) : string * string :=
  match s with
  | EmptyString => (EmptyString, EmptyString)
  | String c t =>
      if isspace c then (EmptyString, s)
      else let '(run, rest) := span_nonspace t in (String c run, rest)
  end.

(** [https?://]: the optional [s] is tried first, then skipped. *)
Definition match_scheme (s : string) : option (string * string) :=
  match strip_prefix "http" s with
  | Some r =>
      let without_s := option_map (pair "http://") (strip_prefix "://" r) in
      match strip_prefix "s" r with
      | Some r' =>
          match strip_prefix "://" r' with
          | Some t => Some ("https://", t)
          | None => without_s
          end
      | None => without_s
      end
  | None => None
  end.

(** The compiled pattern, as one attempt at the start of [s]: the
    matched text and the text after it. [\S+] needs one character at
    least. *)
Definition URL_PATTERN (s : string) : option (string * string) :=
  match match_scheme s with
  | Some (pre, t) =>
      let '(run, rest) := span_nonspace t in
      match run with
      | EmptyString => None
      | _ => Some (pre +:+ run, rest)
      end
  | None => None
  end.

Definition inspect {A} (a : A) : {b : A | a = b} := exist _ a eq_refl.

(** [URL_PATTERN.findall(text)]: the scan tries the pattern at the
    current position; after a match it goes on behind the match,
    otherwise one character further. *)
Equations? findall (s : string) : list string by wf (String.length s) lt :=
  findall s with inspect (URL_PATTERN s) => {
    | exist _ (Some (m, rest)) _ := m :: findall rest;
    | exist _ None _ with s => {
        | EmptyString := [];
        | String _ t := findall t } }.
Proof.
  all: try (simpl; lia).
  assert (Hpre : forall p u r, strip_prefix p u = Some r ->
                   String.length u = String.length p + String.length r).
  { induction p as [|a p IH]; intros u r; simpl.
    - intros [= <-]; reflexivity.
    - destruct u as [|b u]; [congruence|].
      destruct (Ascii.eqb a b); [|congruence].
      intros H; apply IH in H; simpl; lia. }
  assert (Hrun : forall u, String.length (snd (span_nonspace u)) <= String.length u).
  { induction u as [|c u IH]; simpl; [lia|].
    destruct (isspace c); simpl; [lia|].
    destruct (span_nonspace u); simpl in *; lia. }
  unfold URL_PATTERN, match_scheme in e.
  destruct (strip_prefix "http" s) as [r|] eqn:Hr; [|congruence].
  apply Hpre in Hr.
  assert (Hw : forall pre t,
             option_map (pair "http://") (strip_prefix "://" r) = Some (pre, t) ->
             String.length t < String.length s).
  { intros pre t. destruct (strip_prefix "://" r) as [t'|] eqn:Ht; simpl; [|congruence].
    intros [= _ <-]. apply Hpre in Ht. simpl in *; lia. }
  match type of e with
  | match ?scrut with _ => _ end = _ => set (q := scrut) in e
  end.
  assert (Hq : forall pre t, q = Some (pre, t) -> String.length t < String.length s).
  { subst q. intros pre t.
    destruct (strip_prefix "s" r) as [r'|] eqn:Hr'; [|apply Hw].
    destruct (strip_prefix "://" r') as [t'|] eqn:Ht'; [|apply Hw].
    intros [= _ <-]. apply Hpre in Hr', Ht'. simpl in *; lia. }
  destruct q as [[pre t]|]; [|congruence].
  specialize (Hq _ _ eq_refl). specialize (Hrun t).
  destruct (span_nonspace t) as [run rest']; simpl in Hrun.
  destruct run; [congruence|].
  injection e as _ <-. lia.
Qed.

Section WithEnv.
Variable E : Env.

(** The test of the loop body of [extract_urls]; a [urlparse] that
    raises is the [except Exception: continue]. *)
Definition validated (url : string) : bool :=
  match urlparse E url with
  | Ok parsed =>
      (bool_decide (scheme parsed = "http") || bool_decide (scheme parsed = "https"))
      && truthy_str (netloc parsed)
  | Raise _ => false
  end.

Definition extract_urls (text : string) : list string :=
  let urls := findall text in
  List.filter validated urls.

(** ** [extract_text_from_html] *)

Definition extract_text_from_html (html : string) : result string :=
  match soup_get_text E html with
  | Ok text =>
      let lines :=
        map strip (List.filter (fun line => truthy_str (strip line)) (splitlines text)) in
      Ok (join (nl +:+ nl) lines)
  | Raise e => Raise e
  end.

(** ** [get_url_hash] *)

Definition get_url_hash (url : string) : string := md5_hexdigest E url.

(** ** [ingest_url] *)

Definition separators : list string := [nl +:+ nl; nl; ". "; " "; EmptyString].

Definition insufficient_content (n : nat) : exn :=
  mk_exn ValueError ("Insufficient content: only " +:+ str_of_nat n +:+ " characters").

(** [Document(page_content=chunk, metadata={...}) for i, chunk in
    enumerate(chunks)] *)
Definition make_docs (url h : string) (chunks : list string) : list Document :=
  imap (fun i chunk =>
          {| page_content := chunk;
             metadata := {| md_source := Some url;
                            md_url_hash := Some h;
                            md_chunk_index := Some i;
                            md_total_chunks := Some (length chunks) |} |})
       chunks.

(** The body of the [try]. *)
Definition ingest_try (url h : string) : M (list Document) :=
  html <- http_get E url ;;
  text <- lift (extract_text_from_html html) ;;
  if (String.length text <? 50)%nat then
    raise (insufficient_content (String.length text))
  else
    let chunks := split_text E 1000 200 separators text in
    let docs := make_docs url h chunks in
    add_documents E docs ;;;
    persist E ;;;
    ingested_add h ;;;
    ret docs.

(** The two [except] clauses, in their order. *)
Definition ingest_except (e : exn) : M (list Document) :=
  if is_RequestException e then
    raise (mk_exn Exception ("Failed to fetch URL: " +:+ exn_str e))
  else
    raise (mk_exn Exception ("Error processing URL: " +:+ exn_str e)).

Definition ingest_url (url : string) (force : bool) : M (list Document) :=
  let h := get_url_hash url in
  w <- get_world ;;
  if negb force && bool_decide (h ∈ _ingested_urls w) then ret []
  else try_except (ingest_try url h) ingest_except.

(** [clear_ingestion_cache] *)
Definition clear_ingestion_cache : M unit :=
  fun w =>
    (Ok tt,
     {| _ingested_urls := ∅; collection := collection w;
        fetch_log := fetch_log w; llm_log := llm_log w |}).

End WithEnv.

End UrlTools.

(* ===================================================================== *)
(** * backend/rag/graph_chat.py                                           *)
(* ===================================================================== *)

Module GraphChat.
Import UrlTools Retriever.

Record ChatState := {
  query : string;
  urls : list string;
  answer : string;
  sources : list string;
  used_rag : bool
}.

Definition Qltb (x y : Q) : bool := negb (Qle_bool y x).

Definition no_info_phrases : list string :=
  [ "don't have enough information";
    "don't have information";
    "context doesn't contain";
    "not mentioned in";
    "cannot find";
    "no information" ].

(** The template of [qa_prompt], filled in. *)
Definition qa_prompt (context question : string) : string :=
  "Use the following pieces of context to answer the question. " +:+ nl +:+
  "If the context doesn't contain relevant information to answer the question, say "
    +:+ dquote +:+
    "I don't have enough information in the provided context to answer that question."
    +:+ dquote +:+ nl +:+
  nl +:+
  "Context:" +:+ nl +:+
  context +:+ nl +:+
  nl +:+
  "Question: " +:+ question +:+ nl +:+
  nl +:+
  "Answer:".

(** [f"Answer this question conversationally:

{state['query']}"] *)
Definition general_prompt (q : string) : string :=
  "Answer this question conversationally:" +:+ nl +:+ nl +:+ q.

(** [doc.metadata.get("source", "unknown")] *)
Definition doc_source (doc : Document) : string :=
  default "unknown" (md_source (metadata doc)).

(** The nodes of the graph. *)
Inductive node := classify | ingest | rag_query.

Section WithEnv.
Variable E : Env.

(** [float(os.getenv("RELEVANCE_THRESHOLD", "0.5"))] *)
Definition RELEVANCE_THRESHOLD : Q :=
  default (1 # 2)%Q (env_RELEVANCE_THRESHOLD E).

Definition classify_node (state : ChatState) : M ChatState :=
  let urls := extract_urls E (query state) in
  ret {| query := query state; urls := urls; answer := answer state;
         sources := []; used_rag := false |}.

Definition route_classify (state : ChatState) : string :=
  if truthy_list (urls state) then "ingest" else "rag_query".

(** The [for] loop of [ingest_node]; each turn is a [try] whose
    [except Exception] only prints. *)
Fixpoint ingest_loop (urls : list string) : M unit :=
  match urls with
  | [] => ret tt
  | url :: rest =>
      try_except (ingest_url E url false ;;; ret tt) (fun _ => ret tt) ;;;
      ingest_loop rest
  end.

Definition ingest_node (state : ChatState) : M ChatState :=
  ingest_loop (urls state) ;;;
  ret state.

(** [RetrievalQA.from_chain_type(llm, retriever=get_retriever(),
    chain_type="stuff", return_source_documents=True, ...)] applied to
    the query: the retriever fetches, the page contents joined by
    blank lines fill [{context}], the model completes the prompt. The
    value is [(res["result"], res["source_documents"])]; the key
    [source_documents] is always there, as it was asked for. *)
Definition qa (question : string) : M (string * list Document) :=
  let retriever := get_retriever E 5 in
  source_documents <- retriever question ;;
  let context := join (nl +:+ nl) (map page_content source_documents) in
  result <- llm_invoke E (qa_prompt context question) ;;
  ret (result, source_documents).

(** The three places that answer with the general model are the same
    four statements. *)
Definition general_llm (state : ChatState) : M ChatState :=
  content <- llm_invoke E (general_prompt (query state)) ;;
  ret {| query := query state; urls := urls state; answer := content;
         sources := []; used_rag := false |}.

(** [any(phrase in answer.lower() for phrase in no_info_phrases)] *)
Definition says_no_info (answer : string) : bool :=
  existsb (fun phrase => contains phrase (lower answer)) no_info_phrases.

(** [[(doc, score) for doc, score in docs_with_scores
      if score < RELEVANCE_THRESHOLD]] *)
Definition relevance_gate (docs_with_scores : list (Document * Q))
  : list (Document * Q) :=
  List.filter (fun '(doc, score) => Qltb score RELEVANCE_THRESHOLD) docs_with_scores.

(** The body of the [try] of [rag_query_node]. [list(set(sources))]
    is [remove_dups]: Python leaves the order open, and nothing
    below depends on it. *)
Definition rag_query_try (state : ChatState) : M ChatState :=
  docs_with_scores <- similarity_search_with_score E (query state) 5 ;;
  let relevant_docs := relevance_gate docs_with_scores in
  if truthy_list relevant_docs then
    let docs := map fst relevant_docs in
    res <- qa (query state) ;;
    let answer := fst res in
    if says_no_info answer then general_llm state
    else
      let sources := map doc_source (snd res) in
      ret {| query := query state; urls := urls state; answer := answer;
             sources := remove_dups sources; used_rag := true |}
  else general_llm state.

(** The [try] statement of [rag_query_node] with its handler. *)
Definition rag_query_try_except (state : ChatState) : M ChatState :=
  try_except (rag_query_try state) (fun _ => general_llm state).

(** [rag_query_node]: the model and the store are fetched before the
    [try], so a failure to obtain either leaves the node at once. The
    objects are the cached ones that the calls below go to. *)
Definition rag_query_node (state : ChatState) : M ChatState :=
  llm <- get_llm E ;;
  vectorstore <- get_vectorstore E ;;
  rag_query_try_except state.

(** ** [build_graph] and [run_chat] *)

Definition node_action (n : node) : ChatState -> M ChatState :=
  match n with
  | classify => classify_node
  | ingest => ingest_node
  | rag_query => rag_query_node
  end.

(** The path map of [add_conditional_edges]. *)
Definition path_map (label : string) : option node :=
  if String.eqb label "ingest" then Some ingest
  else if String.eqb label "rag_query" then Some rag_query
  else None.

(** The edge out of a node; [Ok None] is the finish point. *)
Definition next_node (n : node) (state : ChatState) : result (option node) :=
  match n with
  | classify =>
      match path_map (route_classify state) with
      | Some n' => Ok (Some n')
      | None => Raise (mk_exn (OtherError "KeyError") (route_classify state))
      end
  | ingest => Ok (Some rag_query)
  | rag_query => Ok None
  end.

(** The default [recursion_limit] of a compiled graph. *)
Definition recursion_limit : nat := 25.

Fixpoint run_from (steps : nat) (n : node) (state : ChatState) : M ChatState :=
  match steps with
  | 0 => raise (mk_exn (OtherError "GraphRecursionError") "Recursion limit reached")
  | S steps' =>
      state' <- node_action n state ;;
      next <- lift (next_node n state') ;;
      match next with
      | Some n' => run_from steps' n' state'
      | None => ret state'
      end
  end.

(** The compiled graph, as its [invoke]; the entry point is
    [classify]. *)
Definition build_graph : ChatState -> M ChatState :=
  run_from recursion_limit classify.

Definition run_chat (q : string) : M ChatState :=
  let graph := build_graph in
  let initial :=
    {| query := q; urls := []; answer := EmptyString; sources := []; used_rag := false |} in
  graph initial.

End WithEnv.

End GraphChat.

(* ===================================================================== *)
(** * backend/main.py                                                     *)
(* ===================================================================== *)

Module Main.

Record ChatRequest := { query : string }.

(** [Field(..., min_length=1, max_length=2000)] on the raw value, then
    [query_must_not_be_empty]. The wording of the first message is
    pydantic's and is not modelled. *)
Definition ChatRequest_parse (raw : string) : result ChatRequest :=
  if (String.length raw <? 1)%nat || (2000 <? String.length raw)%nat then
    Raise (mk_exn ValueError "query: length out of range")
  else if negb (truthy_str raw) || negb (truthy_str (strip raw)) then
    Raise (mk_exn ValueError "Query cannot be empty")
  else Ok {| query := strip raw |}.

Record ChatResponse := {
  answer : string;
  sources : option (list string);
  used_rag : bool;
  status : string
}.

(** The constructor call [ChatResponse(...)]: a keyword that is left
    out takes the default of the class. *)
Definition ChatResponse_init (answer : string) (sources : option (option (list string)))
    (used_rag : option bool) (status : option string) : ChatResponse :=
  {| answer := answer;
     sources := default None sources;
     used_rag := default false used_rag;
     status := default "success" status |}.

(** What the handler gives back to the framework. *)
Inductive outcome :=
| Returned (response : ChatResponse)
| HTTPException (status_code : nat) (detail : string).

Section WithEnv.
Variable E : Env.

Definition chat (req : ChatRequest) : World -> outcome * World :=
  fun w =>
    match GraphChat.run_chat E (query req) w with
    | (Ok result, w') =>
        let response :=
          ChatResponse_init (GraphChat.answer result)
                            (Some (Some (GraphChat.sources result)))
                            None
                            (Some "success") in
        (Returned response, w')
    | (Raise e, w') =>
        if is_ValueError e then (HTTPException 400 (exn_str e), w')
        else (HTTPException 500 ("Failed to process query: " +:+ exn_str e), w')
    end.

End WithEnv.

End Main.

(* ===================================================================== *)
(** * The vector-store singleton of retriever.py, and /health             *)
(* ===================================================================== *)

Module VectorStore.

(** The module global [_vectorstore_instance], and how many times the
    constructor was called so far. A store object is told from another
    by the number of the construction that made it. *)
Record Globals := {
  _vectorstore_instance : option nat;
  constructions : nat
}.

(** The reply of the /health handler: the 200 body or the 503 body. *)
Inductive health_reply :=
| Healthy
| Unhealthy (error : string).

Section WithChroma.
(** [os.makedirs(PERSIST_DIR, exist_ok=True)] followed by
    [Chroma(persist_directory=..., embedding_function=get_embeddings())],
    for the n-th construction: [None] when the object is built. *)
Variable new_chroma : nat -> option exn.

Definition get_vectorstore (g : Globals) : result nat * Globals :=
  match _vectorstore_instance g with
  | None =>
      match new_chroma (constructions g) with
      | None =>
          (Ok (constructions g),
           {| _vectorstore_instance := Some (constructions g);
              constructions := S (constructions g) |})
      | Some e =>
          (Raise e,
           {| _vectorstore_instance := None; constructions := S (constructions g) |})
      end
  | Some instance => (Ok instance, g)
  end.

Definition reset_vectorstore (g : Globals) : Globals :=
  {| _vectorstore_instance := None; constructions := constructions g |}.

(** [health] of main.py. *)
Definition health (g : Globals) : health_reply * Globals :=
  match get_vectorstore g with
  | (Ok vectorstore, g') => (Healthy, g')
  | (Raise e, g') => (Unhealthy (exn_str e), g')
  end.

(** [n] calls of [get_vectorstore] in a row: the values, and the
    globals at the end. *)
Fixpoint get_many (n : nat) (g : Globals) : list (result nat) * Globals :=
  match n with
  | 0 => ([], g)
  | S n' =>
      let '(r, g1) := get_vectorstore g in
      let '(rs, g2) := get_many n' g1 in
      (r :: rs, g2)
  end.

End WithChroma.

End VectorStore.

(* ===================================================================== *)
(** * Vocabulary of the properties                                        *)
(* ===================================================================== *)

Module Spec.
Import UrlTools GraphChat.

(** The strings of [ms] lie in [text] one after the other, without
    overlap, in the order of the list. *)
Inductive occurs_in_order : list string -> string -> Prop :=
| occurs_nil text : occurs_in_order [] text
| occurs_cons m ms pre post :
    occurs_in_order ms post ->
    occurs_in_order (m :: ms) (pre +:+ m +:+ post).

(** [answer] has a stretch that reads as a refusal phrase once case is
    ignored. *)
Definition mentions_refusal (answer : string) : Prop :=
  exists phrase pre mid post,
    In phrase no_info_phrases /\
    answer = pre +:+ mid +:+ post /\
    lower mid = phrase.

Definition is_Raise {A} (r : result A) : Prop :=
  match r with Raise _ => True | Ok _ => False end.

Section WithEnv.
Variable E : Env.

(** The world after [ingest_url(url)] has been tried on every URL in
    turn, whatever each try came to. *)
Definition ingest_all (urls : list string) (w : World) : World :=
  fold_left (fun w url => snd (ingest_url E url false w)) urls w.

(** The state and the world in which the [rag_query] step of
    [run_chat(q)] starts. *)
Definition entry_state (q : string) : ChatState :=
  {| query := q; urls := extract_urls E q; answer := EmptyString;
     sources := []; used_rag := false |}.

Definition entry_world (q : string) (w : World) : World :=
  ingest_all (extract_urls E q) w.

(** [st] carries an ungrounded answer to [q]: not marked as RAG, no
    sources, and the text is a completion of the conversational
    prompt for the raw query. *)
Definition ungrounded (q : string) (st : ChatState) : Prop :=
  used_rag st = false /\
  sources st = [] /\
  exists log, llm_complete E log (general_prompt q) = Ok (answer st).

End WithEnv.

(** The prompt the grounded call sends for the retrieved documents. *)
Definition grounded_prompt (q : string) (retrieved : list (Document * Q)) : string :=
  qa_prompt (join (nl +:+ nl) (map page_content (map fst retrieved))) q.

(** The world once one more prompt went to the model. *)
Definition asked (prompt : string) (w : World) : World :=
  {| _ingested_urls := _ingested_urls w; collection := collection w;
     fetch_log := fetch_log w; llm_log := prompt :: llm_log w |}.

(** The result record of a fallback answer [a] to [q]. *)
Definition fallback_state (q : string) (found : list string) (a : string) : ChatState :=
  {| query := q; urls := found; answer := a; sources := []; used_rag := false |}.

(** Text made of white space only, and text without any. *)
Fixpoint all_space (s : string) : bool :=
  match s with
  | EmptyString => true
  | String c t => isspace c && all_space t
  end.

Fixpoint no_space (s : string) : bool :=
  match s with
  | EmptyString => true
  | String c t => negb (isspace c) && no_space t
  end.

Definition first_char (s : string) : option ascii :=
  match s with
  | EmptyString => None
  | String c _ => Some c
  end.

Fixpoint last_char (s : string) : option ascii :=
  match s with
  | EmptyString => None
  | String c t =>
      match t with
      | EmptyString => Some c
      | String _ _ => last_char t
      end
  end.

(** [s] is not empty and neither starts nor ends with white space. *)
Definition trimmed (s : string) : Prop :=
  (exists c, first_char s = Some c /\ isspace c = false) /\
  (exists c, last_char s = Some c /\ isspace c = false).

(** [u] is [http://] or [https://] followed by at least one character
    and holds no white space after the scheme. *)
Definition url_shaped (u : string) : Prop :=
  exists run,
    (u = "http://" +:+ run \/ u = "https://" +:+ run) /\
    run <> EmptyString /\
    no_space run = true.

(** The model and the store can both be obtained. *)
Definition handles_built (E : Env) : Prop :=
  (exists llm, the_llm E = Ok llm) /\ (exists vectorstore, the_vectorstore E = Ok vectorstore).

(** The text before the first character that [stop] holds of (the whole
    text when there is none), the text after the first one (if there is
    one) and the text after the last one (the whole text when there is
    none): the parts [str.partition] and [str.rpartition] give. *)
Fixpoint before_first (stop : ascii -> bool) (s : string) : string :=
  match s with
  | EmptyString => EmptyString
  | String c t => if stop c then EmptyString else String c (before_first stop t)
  end.

Fixpoint after_first (stop : ascii -> bool) (s : string) : option string :=
  match s with
  | EmptyString => None
  | String c t => if stop c then Some t else after_first stop t
  end.

Fixpoint after_last (stop : ascii -> bool) (s : string) : string :=
  match s with
  | EmptyString => EmptyString
  | String c t =>
      if existsb stop (list_ascii_of_string t) then after_last stop t
      else if stop c then t else s
  end.

(** The host in a network location [userinfo@host:port], as the
    [hostname] of a parse splits it off, letter case apart: of what
    follows the last [@], the text between the first [[] and the next
    []] when there is a [[], and the text before the first [:]
    otherwise. A parse with an empty host has [hostname] [None]. *)
Definition host_of_netloc (netloc : string) : string :=
  let hostinfo := after_last (fun c => (code c =? 64)%nat) netloc in
  match after_first (fun c => (code c =? 91)%nat) hostinfo with
  | Some bracketed => before_first (fun c => (code c =? 93)%nat) bracketed
  | None => before_first (fun c => (code c =? 58)%nat) hostinfo
  end.

(** The sentence the template of [qa_prompt] tells the model to say
    when the context does not answer the question. *)
Definition instructed_refusal : string :=
  "I don't have enough information in the provided context to answer that question.".

(** The chunk documents [ingest_url] builds for a page text. *)
Definition page_docs (E : Env) (url text : string) : list Document :=
  make_docs url (get_url_hash E url) (split_text E 1000 200 separators text).

(** The world after a successful ingestion that stored [docs]. *)
Definition ingested (url : string) (h : string) (docs : list Document) (w : World) : World :=
  {| _ingested_urls := {[h]} ∪ _ingested_urls w; collection := collection w ++ docs;
     fetch_log := url :: fetch_log w; llm_log := llm_log w |}.

#[global] Instance Qlt_dec (x y : Q) : Decision (x < y)%Q.
Proof.
  destruct (Qlt_le_dec x y) as [H|H]; [left; exact H|right].
  apply Qle_not_lt; exact H.
Defined.

End Spec.

(* ===================================================================== *)
(** * Test doubles for the collaborators                                  *)
(* ===================================================================== *)

Module Fixture.
Import GraphChat.

(** Characters up to the first one in [stop], and the text from there. *)
Fixpoint break_at (stop : ascii -> bool) (s : string) : string * string :=
  match s with
  | EmptyString => (EmptyString, EmptyString)
  | String c t =>
      if stop c then (EmptyString, s)
      else let '(a, b) := break_at stop t in (String c a, b)
  end.

Definition is_colon (c : ascii) : bool := (code c =? 58)%nat.

Definition ends_netloc (c : ascii) : bool :=
  ((code c =? 47) || (code c =? 63) || (code c =? 35))%nat.

(** A parser for [scheme://netloc...] that never raises. *)
Definition urlparse (url : string) : result ParseResult :=
  let '(sch, rest) := break_at is_colon url in
  match UrlTools.strip_prefix "://" rest with
  | Some after => Ok {| scheme := sch; netloc := fst (break_at ends_netloc after) |}
  | None => Ok {| scheme := EmptyString; netloc := EmptyString |}
  end.

Definition doc (text url : string) : Document :=
  {| page_content := text;
     metadata := {| md_source := Some url; md_url_hash := None;
                    md_chunk_index := None; md_total_chunks := None |} |}.

Definition down {A} (what : string) : result A :=
  Raise (mk_exn (OtherError "ConnectionError") what).

(** An environment from a web, a search answer and a model; the page
    text is the body itself and is stored as one chunk. *)
Definition env (web : string -> result string)
    (search : list Document -> string -> result (list (Document * Q)))
    (llm : list string -> string -> result string) : Env :=
  {| md5_hexdigest := fun s => "md5:" +:+ s;
     Lib.urlparse := urlparse;
     requests_get := fun _ url => web url;
     soup_get_text := fun html => Ok html;
     split_text := fun _ _ _ text => [text];
     the_vectorstore :=
       Ok {| store_add_documents := fun _ _ => None;
             store_persist := fun _ => None;
             store_search := fun coll q _ => search coll q |};
     the_llm := Ok llm;
     env_RELEVANCE_THRESHOLD := None |}.

Definition w0 : World :=
  {| _ingested_urls := ∅; collection := []; fetch_log := []; llm_log := [] |}.

(** A world in which the page of the examples is ingested already. *)
Definition w_known : World :=
  {| _ingested_urls := {["md5:https://a.example/p"]}; collection := [];
     fetch_log := []; llm_log := [] |}.

Definition page : string :=
  "Paris is the capital of France and it lies on the river Seine.".

Definition short_page : string := "Loading...".

Definition no_web (url : string) : result string :=
  Raise (mk_exn RequestException "503 Server Error").

Definition one_page (url : string) : result string := Ok page.

Definition near : Document * Q := (doc "Paris is the capital." "https://a.example/p", (1 # 10)%Q).
Definition far : Document * Q := (doc "Bread needs flour." "https://b.example/q", (9 # 10)%Q).

Definition llm_says (text : string) (log : list string) (prompt : string) : result string :=
  Ok text.

Definition llm_down (log : list string) (prompt : string) : result string :=
  down "model unavailable".

Definition refusal : string :=
  "I Don't Have Enough Information in the provided context to answer that question.".

(** A model that refuses when grounded and chats otherwise. *)
Definition llm_refuses (log : list string) (prompt : string) : result string :=
  if startswith "Answer this question conversationally:" prompt then Ok "Paris, I think."
  else Ok refusal.

Definition empty_index (coll : list Document) (q : string)
  : result (list (Document * Q)) := Ok [].

Definition index_near_far (coll : list Document) (q : string)
  : result (list (Document * Q)) := Ok [near; far].

Definition index_far (coll : list Document) (q : string)
  : result (list (Document * Q)) := Ok [far].


(** Everything works; the index is empty and the model is down. *)
Definition E_model_down : Env := env one_page empty_index llm_down.

(** One chunk inside the gate, one outside, a model that answers. *)
Definition E_grounded : Env := env one_page index_near_far (llm_says "Paris.").

(** The same index with a model that refuses on the context. *)
Definition E_refusing : Env := env one_page index_near_far llm_refuses.

(** Only a chunk outside the gate. *)
Definition E_far : Env := env one_page index_far (llm_says "Flour, water and salt.").

(** Pages with next to no text. *)
Definition E_short_page : Env := env (fun _ => Ok short_page) empty_index llm_down.

(** No web; and no web and no index. *)
Definition E_web_down : Env := env no_web empty_index llm_down.

(** Like [E_model_down], with a store that cannot persist. *)
Definition E_persist_fails : Env :=
  {| md5_hexdigest := fun s => "md5:" +:+ s;
     Lib.urlparse := urlparse;
     requests_get := fun _ url => one_page url;
     soup_get_text := fun html => Ok html;
     split_text := fun _ _ _ text => [text];
     the_vectorstore :=
       Ok {| store_add_documents := fun _ _ => None;
             store_persist := fun _ => Some (mk_exn (OtherError "AttributeError") "persist");
             store_search := fun coll q _ => empty_index coll q |};
     the_llm := Ok llm_down;
     env_RELEVANCE_THRESHOLD := None |}.

(** A model that raises a [ValueError]. *)
Definition llm_rejects (log : list string) (prompt : string) : result string :=
  Raise (mk_exn ValueError "API key not valid").

Definition E_model_rejects : Env := env one_page empty_index llm_rejects.

(** Pages made of blanks. *)
Definition E_blank_page : Env := env (fun _ => Ok "   ") empty_index llm_down.

(** A constructor that fails the first time only. *)
Definition chroma_second_try (n : nat) : option exn :=
  match n with
  | 0 => Some (mk_exn (OtherError "PermissionError") "data/chroma_db")
  | S _ => None
  end.

Definition g0 : VectorStore.Globals :=
  {| VectorStore._vectorstore_instance := None; VectorStore.constructions := 0 |}.

(** A working model, and a store that cannot be built. *)
Definition E_no_store : Env :=
  {| md5_hexdigest := fun s => "md5:" +:+ s;
     Lib.urlparse := urlparse;
     requests_get := fun _ url => one_page url;
     soup_get_text := fun html => Ok html;
     split_text := fun _ _ _ text => [text];
     the_vectorstore := Raise (mk_exn (OtherError "PermissionError") "data/chroma_db");
     the_llm := Ok (llm_says "Hello!");
     env_RELEVANCE_THRESHOLD := None |}.

(** The index of the examples under a configured threshold of 0.05. *)
Definition E_strict : Env :=
  {| md5_hexdigest := fun s => "md5:" +:+ s;
     Lib.urlparse := urlparse;
     requests_get := fun _ url => one_page url;
     soup_get_text := fun html => Ok html;
     split_text := fun _ _ _ text => [text];
     the_vectorstore :=
       Ok {| store_add_documents := fun _ _ => None;
             store_persist := fun _ => None;
             store_search := fun coll q _ => index_near_far coll q |};
     the_llm := Ok (llm_says "Paris.");
     env_RELEVANCE_THRESHOLD := Some (1 # 20)%Q |}.

Definition two_urls : ChatState :=
  {| query := "read http://x.example/1 and http://y.example/2";
     urls := ["http://x.example/1"; "http://y.example/2"];
     answer := EmptyString; sources := []; used_rag := false |}.

End Fixture.


Import UrlTools GraphChat Spec.

(* ===================================================================== *)
(** * The monad                                                           *)
(* ===================================================================== *)

Ltac unfold_m :=
  unfold bind, ret, raise, lift, try_except, get_world in *.

(* ===================================================================== *)
(** * Page ingestion                                                      *)
(* ===================================================================== *)

Section Ingestion.
Variable E : Env.

Lemma ingest_url_skips url w :
  get_url_hash E url ∈ _ingested_urls w ->
  ingest_url E url false w = (Ok [], w).
Proof.
  intros Hin. unfold ingest_url. unfold_m. cbn.
  rewrite bool_decide_eq_true_2 by exact Hin. reflexivity.
Qed.

Lemma ingest_url_runs url force w :
  force = true \/ get_url_hash E url ∉ _ingested_urls w ->
  ingest_url E url force w =
  try_except (ingest_try E url (get_url_hash E url)) ingest_except w.
Proof.
  intros H. unfold ingest_url. unfold bind at 1. unfold get_world.
  destruct H as [-> | Hnot]; cbn; [reflexivity|].
  rewrite bool_decide_eq_false_2 by exact Hnot.
  rewrite andb_false_r. reflexivity.
Qed.

(** What one run of the [try] body does to the world. *)
Lemma ingest_try_effects url h w r w' :
  ingest_try E url h w = (r, w') ->
  fetch_log w' = url :: fetch_log w /\
  llm_log w' = llm_log w /\
  match r with
  | Ok docs => _ingested_urls w' = {[h]} ∪ _ingested_urls w
  | Raise _ => _ingested_urls w' = _ingested_urls w
  end.
Proof.
  unfold ingest_try, http_get, add_documents, persist, ingested_add. unfold_m.
  cbv beta iota.
  destruct (requests_get E (fetch_log w) url) as [html|e]; cbv beta iota.
  2: { intros [= <- <-]; cbn; auto. }
  destruct (extract_text_from_html E html) as [text|e]; cbv beta iota.
  2: { intros [= <- <-]; cbn; auto. }
  destruct (String.length text <? 50)%nat; cbv beta iota.
  { intros [= <- <-]; cbn; auto. }
  destruct (chroma_add_documents E _ _) as [e|]; cbv beta iota.
  { intros [= <- <-]; cbn; auto. }
  destruct (chroma_persist E _) as [e|]; cbv beta iota.
  { intros [= <- <-]; cbn; auto. }
  intros [= <- <-]; cbn; auto.
Qed.

Lemma ingest_except_raises e w :
  exists e', ingest_except e w = (Raise e', w).
Proof.
  unfold ingest_except, raise. destruct (is_RequestException e); eauto.
Qed.

(** The same for the whole call that does not skip. *)
Lemma ingest_url_effects url force w r w' :
  force = true \/ get_url_hash E url ∉ _ingested_urls w ->
  ingest_url E url force w = (r, w') ->
  fetch_log w' = url :: fetch_log w /\
  llm_log w' = llm_log w /\
  match r with
  | Ok docs => _ingested_urls w' = {[get_url_hash E url]} ∪ _ingested_urls w
  | Raise _ => _ingested_urls w' = _ingested_urls w
  end.
Proof.
  intros H. rewrite (ingest_url_runs _ _ _ H). unfold try_except.
  destruct (ingest_try E url (get_url_hash E url) w) as [[docs|e] w1] eqn:Htry;
    apply ingest_try_effects in Htry.
  - intros [= <- <-]. exact Htry.
  - destruct (ingest_except_raises e w1) as [e' ->].
    intros [= <- <-]. exact Htry.
Qed.

Lemma ingest_url_raise_keeps_cache url force w e w' :
  ingest_url E url force w = (Raise e, w') ->
  _ingested_urls w' = _ingested_urls w.
Proof.
  destruct (decide (force = true \/ get_url_hash E url ∉ _ingested_urls w)) as [H|H].
  - intros Hrun. apply (ingest_url_effects _ _ _ _ _ H) in Hrun. tauto.
  - assert (Hf : force = false) by (destruct force; tauto).
    assert (Hin : get_url_hash E url ∈ _ingested_urls w).
    { destruct (decide (get_url_hash E url ∈ _ingested_urls w)); tauto. }
    subst force. rewrite ingest_url_skips by exact Hin. congruence.
Qed.

(** The loop of [ingest_node] cannot raise and is the fold. *)
Lemma ingest_loop_all urls w :
  ingest_loop E urls w = (Ok tt, ingest_all E urls w).
Proof.
  revert w. induction urls as [|url rest IH]; intros w; [reflexivity|].
  cbn [ingest_loop ingest_all fold_left]. unfold_m.
  destruct (ingest_url E url false w) as [[docs|e] w1]; cbn; apply IH.
Qed.

End Ingestion.

Section IngestionFailures.
Variable E : Env.

Lemma ingest_url_fetch_fails url force w :
  force = true \/ get_url_hash E url ∉ _ingested_urls w ->
  is_Raise (requests_get E (fetch_log w) url) ->
  exists e w', ingest_url E url force w = (Raise e, w').
Proof.
  intros H Hdown. rewrite (ingest_url_runs _ _ _ _ H).
  unfold try_except, ingest_try, http_get, bind at 1.
  destruct (requests_get E (fetch_log w) url) as [html|e]; [destruct Hdown|].
  cbv beta iota. destruct (ingest_except_raises e
    {| _ingested_urls := _ingested_urls w; collection := collection w;
       fetch_log := url :: fetch_log w; llm_log := llm_log w |}) as [e' ->].
  eauto.
Qed.

Lemma ingest_all_web_down urls w :
  (forall log url, is_Raise (requests_get E log url)) ->
  (forall url, url ∈ urls -> get_url_hash E url ∉ _ingested_urls w) ->
  fetch_log (ingest_all E urls w) = (rev urls ++ fetch_log w)%list.
Proof.
  intros Hdown. revert w. induction urls as [|url rest IH]; intros w Hnew; [reflexivity|].
  assert (Hurl : get_url_hash E url ∉ _ingested_urls w) by (apply Hnew; left).
  destruct (ingest_url_fetch_fails url false w (or_intror Hurl) (Hdown _ _))
    as (e & w1 & Hrun).
  destruct (ingest_url_effects E _ _ _ _ _ (or_intror Hurl) Hrun) as (Hlog & _ & Hcache).
  cbn [ingest_all fold_left]. rewrite Hrun. cbn [snd].
  change (fetch_log (ingest_all E rest w1) = (rev (url :: rest) ++ fetch_log w)%list).
  rewrite IH.
  - rewrite Hlog. cbn [rev]. rewrite <- app_assoc. reflexivity.
  - intros u Hu. rewrite Hcache. apply Hnew. right. exact Hu.
Qed.

End IngestionFailures.

Lemma ingest_node_all (E : Env) (state : ChatState) (w : World) :
  ingest_node E state w = (Ok state, ingest_all E (urls state) w).
Proof. unfold ingest_node, bind at 1. rewrite ingest_loop_all. reflexivity. Qed.

Lemma run_from_ingest (E : Env) (steps : nat) (state : ChatState) (w : World) :
  run_from E (S steps) ingest state w =
  run_from E steps rag_query state (ingest_all E (urls state) w).
Proof.
  cbn [run_from node_action]. unfold bind at 1. rewrite ingest_node_all. reflexivity.
Qed.

(** C5. Once the hash of a URL is in the ingested set, [ingest(url,
    force=false)] returns the empty sequence and leaves the world as it
    is, so no fetch happens; an ingestion that succeeds followed by a
    second call makes exactly one fetch in all; [ingest(url, force=true)]
    always fetches, whatever was ingested before. *)
Theorem C5_ingest_skips_known_and_force_fetches (E : Env) (url : string) (w : World) :
  (get_url_hash E url ∈ _ingested_urls w ->
   ingest_url E url false w = (Ok [], w))
  /\ (forall force docs w1,
        force = true \/ get_url_hash E url ∉ _ingested_urls w ->
        ingest_url E url force w = (Ok docs, w1) ->
        ingest_url E url false w1 = (Ok [], w1) /\
        fetch_log w1 = url :: fetch_log w)
  /\ (exists r w', ingest_url E url true w = (r, w') /\
                   fetch_log w' = url :: fetch_log w).
Proof.
  split; [apply ingest_url_skips|]. split.
  - intros force docs w1 Hruns Hrun.
    destruct (ingest_url_effects E _ _ _ _ _ Hruns Hrun) as (Hlog & _ & Hcache).
    split; [|exact Hlog].
    apply ingest_url_skips. rewrite Hcache.
    apply elem_of_union_l, elem_of_singleton. reflexivity.
  - destruct (ingest_url E url true w) as [r w'] eqn:Hrun.
    exists r, w'. split; [reflexivity|].
    apply (ingest_url_effects E _ _ _ _ _ (or_introl eq_refl) Hrun).
Qed.

Lemma C5_witness :
  ingest_url Fixture.E_model_down "https://a.example/p" false Fixture.w_known
  = (Ok [], Fixture.w_known)
  /\ (ingest_url Fixture.E_model_down "https://a.example/p" false
        (snd (ingest_url Fixture.E_model_down "https://a.example/p" false Fixture.w0))
      = (Ok [], snd (ingest_url Fixture.E_model_down "https://a.example/p" false Fixture.w0))
      /\ fetch_log (snd (ingest_url Fixture.E_model_down "https://a.example/p" false Fixture.w0))
         = ["https://a.example/p"]).
Proof.
  assert (Hknown : get_url_hash Fixture.E_model_down "https://a.example/p"
                   ∈ _ingested_urls Fixture.w_known)
    by (change ("md5:https://a.example/p" ∈ ({["md5:https://a.example/p"]} : gset string));
        apply elem_of_singleton_2; reflexivity).
  assert (Hnew : false = true \/
                 get_url_hash Fixture.E_model_down "https://a.example/p"
                 ∉ _ingested_urls Fixture.w0) by (right; cbn; set_solver).
  assert (Hrun : ingest_url Fixture.E_model_down "https://a.example/p" false Fixture.w0 =
                 (Ok (make_docs "https://a.example/p"
                        (get_url_hash Fixture.E_model_down "https://a.example/p")
                        [Fixture.page]),
                  snd (ingest_url Fixture.E_model_down "https://a.example/p" false Fixture.w0)))
    by (vm_compute; reflexivity).
  split.
  - exact (proj1 (C5_ingest_skips_known_and_force_fetches Fixture.E_model_down
                    "https://a.example/p" Fixture.w_known) Hknown).
  - exact (proj1 (proj2 (C5_ingest_skips_known_and_force_fetches Fixture.E_model_down
                           "https://a.example/p" Fixture.w0)) _ _ _ Hnew Hrun).
Defined.

(** C6. When the text extracted from the fetched page has fewer than 50
    characters, [ingest] raises the "insufficient content" failure, the
    collection holds what it held before and so does the ingested set; and
    in general a call that raises never records the hash. *)
Theorem C6_short_page_is_rejected (E : Env) (url : string) (force : bool) (w : World)
    (html text : string) :
  force = true \/ get_url_hash E url ∉ _ingested_urls w ->
  requests_get E (fetch_log w) url = Ok html ->
  extract_text_from_html E html = Ok text ->
  String.length text < 50 ->
  (exists w',
     ingest_url E url force w =
       (Raise (mk_exn Exception
                 ("Error processing URL: " +:+
                  ("Insufficient content: only " +:+ str_of_nat (String.length text)
                   +:+ " characters"))), w') /\
     collection w' = collection w /\
     _ingested_urls w' = _ingested_urls w)
  /\ (forall url' force' w0 e w1,
        ingest_url E url' force' w0 = (Raise e, w1) ->
        _ingested_urls w1 = _ingested_urls w0).
Proof.
  intros Hruns Hget Htext Hshort. split.
  - rewrite (ingest_url_runs _ _ _ _ Hruns).
    unfold try_except, ingest_try, http_get, bind at 1. rewrite Hget. cbv beta iota.
    unfold bind at 1, lift. rewrite Htext. cbv beta iota.
    apply Nat.ltb_lt in Hshort. rewrite Hshort.
    unfold raise, ingest_except, insufficient_content. cbn.
    eexists. split; [reflexivity|]. cbn. auto.
  - intros url' force' w0 e w1. apply ingest_url_raise_keeps_cache.
Qed.

Lemma C6_witness :
  exists w',
    ingest_url Fixture.E_short_page "https://a.example/p" false Fixture.w0 =
      (Raise (mk_exn Exception "Error processing URL: Insufficient content: only 10 characters"),
       w') /\
    collection w' = [] /\ _ingested_urls w' = ∅.
Proof.
  assert (Hnew : false = true \/
                 get_url_hash Fixture.E_short_page "https://a.example/p"
                 ∉ _ingested_urls Fixture.w0)
    by (right; cbn; set_solver).
  exact (proj1 (C6_short_page_is_rejected Fixture.E_short_page "https://a.example/p" false
                  Fixture.w0 Fixture.short_page Fixture.short_page Hnew eq_refl eq_refl
                  ltac:(vm_compute; lia))).
Defined.

(** C7. The ingest stage tries [ingest(url, force=false)] on every URL of
    the list in order: it returns normally with the state untouched and the
    world that the tries leave one after the other, whether a try raised or
    not; with the web down and nothing ingested before, every URL is still
    fetched, in order; and the graph goes on from [ingest] to the
    [rag_query] step. *)
Theorem C7_ingest_stage_goes_through_all_urls (E : Env) (state : ChatState) (w : World) :
  ingest_node E state w = (Ok state, ingest_all E (urls state) w)
  /\ (forall url rest w0,
        ingest_all E (url :: rest) w0 =
        ingest_all E rest (snd (ingest_url E url false w0)))
  /\ ((forall log url, is_Raise (requests_get E log url)) ->
      (forall url, url ∈ urls state -> get_url_hash E url ∉ _ingested_urls w) ->
      fetch_log (ingest_all E (urls state) w) = (rev (urls state) ++ fetch_log w)%list)
  /\ next_node ingest state = Ok (Some rag_query)
  /\ (forall steps,
        run_from E (S steps) ingest state w =
        run_from E steps rag_query state (ingest_all E (urls state) w)).
Proof.
  split; [apply ingest_node_all|]. split; [reflexivity|].
  split; [apply ingest_all_web_down|]. split; [reflexivity|].
  intros steps. apply run_from_ingest.
Qed.

Lemma C7_witness :
  fetch_log (ingest_all Fixture.E_web_down (urls Fixture.two_urls) Fixture.w0) =
  (rev (urls Fixture.two_urls) ++ fetch_log Fixture.w0)%list.
Proof.
  refine (proj1 (proj2 (proj2 (C7_ingest_stage_goes_through_all_urls Fixture.E_web_down
                                 Fixture.two_urls Fixture.w0))) _ _).
  - intros log url. exact I.
  - intros url _. cbn. set_solver.
Defined.

(* ===================================================================== *)
(** * Strings                                                             *)
(* ===================================================================== *)

Lemma string_app_cons (c : ascii) (a b : string) :
  String c a +:+ b = String c (a +:+ b).
Proof. reflexivity. Qed.

Lemma string_app_nil_l (b : string) : EmptyString +:+ b = b.
Proof. reflexivity. Qed.

Lemma string_app_assoc (a b c : string) : (a +:+ b) +:+ c = a +:+ (b +:+ c).
Proof.
  induction a as [|x a IH]; [reflexivity|].
  rewrite !string_app_cons, IH. reflexivity.
Qed.

Lemma string_app_nil_r (a : string) : a +:+ EmptyString = a.
Proof.
  induction a as [|x a IH]; [reflexivity|].
  rewrite string_app_cons, IH. reflexivity.
Qed.

Lemma lower_app (a b : string) : lower (a +:+ b) = lower a +:+ lower b.
Proof.
  induction a as [|x a IH]; [reflexivity|].
  rewrite string_app_cons. cbn [lower]. rewrite string_app_cons, IH. reflexivity.
Qed.

(** Cutting [lower s] cuts [s] at the same place. *)
Lemma lower_split (s x y : string) :
  lower s = x +:+ y ->
  exists a b, s = a +:+ b /\ lower a = x /\ lower b = y.
Proof.
  revert s. induction x as [|c x IH]; intros s H.
  - exists EmptyString, s. auto.
  - rewrite string_app_cons in H.
    destruct s as [|d s]; cbn [lower] in H; [discriminate|].
    injection H as Hc Hs. destruct (IH _ Hs) as (a & b & -> & <- & <-).
    exists (String d a), b. cbn [lower]. rewrite Hc. auto.
Qed.

Lemma startswith_app (p s : string) : startswith p (p +:+ s) = true.
Proof.
  induction p as [|c p IH]; [reflexivity|].
  rewrite string_app_cons. cbn [startswith].
  rewrite Ascii.eqb_refl. exact IH.
Qed.

Lemma startswith_split (p s : string) :
  startswith p s = true -> exists post, s = p +:+ post.
Proof.
  revert s. induction p as [|c p IH]; intros s H.
  - exists s. reflexivity.
  - destruct s as [|d s]; cbn [startswith] in H; [discriminate|].
    destruct (Ascii.eqb_spec c d) as [->|]; [|discriminate].
    destruct (IH _ H) as [post ->]. exists post. reflexivity.
Qed.

Lemma contains_unfold (p s : string) :
  contains p s =
  startswith p s || match s with EmptyString => false | String _ t => contains p t end.
Proof. destruct s; reflexivity. Qed.

Lemma contains_iff (p s : string) :
  contains p s = true <-> exists pre post, s = pre +:+ p +:+ post.
Proof.
  split.
  - induction s as [|c s IH]; rewrite contains_unfold; intros H;
      apply orb_true_iff in H as [H|H].
    + apply startswith_split in H as [post ->]. exists EmptyString, post. reflexivity.
    + discriminate.
    + apply startswith_split in H as [post ->]. exists EmptyString, post. reflexivity.
    + destruct (IH H) as (pre & post & ->). exists (String c pre), post. reflexivity.
  - intros (pre & post & ->). induction pre as [|c pre IH].
    + rewrite string_app_nil_l, contains_unfold, startswith_app. reflexivity.
    + rewrite string_app_cons, contains_unfold, IH. apply orb_true_r.
Qed.

(** The test of the source is the case-blind search for a phrase. *)
Lemma says_no_info_iff (answer : string) :
  says_no_info answer = true <-> mentions_refusal answer.
Proof.
  unfold says_no_info, mentions_refusal. rewrite existsb_exists. split.
  - intros (phrase & Hin & Hc). apply contains_iff in Hc as (x & y & Hc).
    apply lower_split in Hc as (pre & rest & -> & _ & Hrest).
    apply lower_split in Hrest as (mid & post & -> & Hmid & _).
    exists phrase, pre, mid, post. auto.
  - intros (phrase & pre & mid & post & Hin & -> & Hmid).
    exists phrase. split; [exact Hin|].
    rewrite !lower_app, Hmid. apply contains_iff. eauto.
Qed.

(* ===================================================================== *)
(** * The answer step                                                     *)
(* ===================================================================== *)

Section Answering.
Variable E : Env.

Lemma Qltb_lt (x y : Q) : Qltb x y = true <-> (x < y)%Q.
Proof.
  unfold Qltb. rewrite negb_true_iff, <- not_true_iff_false, Qle_bool_iff.
  split; [apply Qnot_le_lt | apply Qlt_not_le].
Qed.

Lemma relevance_gate_filter (retrieved : list (Document * Q)) :
  relevance_gate E retrieved =
  filter (fun ds => (ds.2 < RELEVANCE_THRESHOLD E)%Q) retrieved.
Proof.
  unfold relevance_gate. induction retrieved as [|[doc score] rest IH]; [reflexivity|].
  cbn [List.filter]. rewrite filter_cons. cbn [snd].
  destruct (decide (score < RELEVANCE_THRESHOLD E)%Q) as [Hlt|Hge].
  - apply Qltb_lt in Hlt. rewrite Hlt, IH. reflexivity.
  - destruct (Qltb score (RELEVANCE_THRESHOLD E)) eqn:Hb; [|exact IH].
    apply Qltb_lt in Hb. contradiction.
Qed.

Lemma relevance_gate_none (retrieved : list (Document * Q)) :
  (forall doc score, (doc, score) ∈ retrieved -> ~ (score < RELEVANCE_THRESHOLD E)%Q) ->
  relevance_gate E retrieved = [].
Proof.
  intros Hfar. rewrite relevance_gate_filter.
  induction retrieved as [|[doc score] rest IH]; [reflexivity|].
  rewrite filter_cons. cbn [snd].
  destruct (decide (score < RELEVANCE_THRESHOLD E)%Q) as [Hlt|_].
  - exfalso. apply (Hfar doc score); [left|exact Hlt].
  - apply IH. intros d s Hin. apply (Hfar d s). right. exact Hin.
Qed.

Lemma relevance_gate_some (retrieved : list (Document * Q)) :
  (exists doc score, (doc, score) ∈ retrieved /\ (score < RELEVANCE_THRESHOLD E)%Q) ->
  relevance_gate E retrieved <> [].
Proof.
  intros (doc & score & Hin & Hlt) Hnil.
  assert (Hgate : (doc, score) ∈ relevance_gate E retrieved).
  { rewrite relevance_gate_filter. apply list_elem_of_filter. split; assumption. }
  rewrite Hnil in Hgate. apply not_elem_of_nil in Hgate. exact Hgate.
Qed.

(** One call of the general model. *)
Lemma general_llm_run (st : ChatState) (w : World) :
  general_llm E st w =
  match llm_complete E (llm_log w) (general_prompt (query st)) with
  | Ok a => (Ok (fallback_state (query st) (urls st) a), asked (general_prompt (query st)) w)
  | Raise e => (Raise e, asked (general_prompt (query st)) w)
  end.
Proof.
  unfold general_llm, llm_invoke, bind, ret.
  destruct (llm_complete E (llm_log w) (general_prompt (query st))); reflexivity.
Qed.

Lemma general_llm_ungrounded (st st' : ChatState) (w w' : World) :
  general_llm E st w = (Ok st', w') -> ungrounded E (query st) st'.
Proof.
  rewrite general_llm_run.
  destruct (llm_complete E (llm_log w) (general_prompt (query st))) as [a|e] eqn:Ha;
    [|discriminate].
  intros [= <- _]. unfold ungrounded. cbn. eauto.
Qed.

(** A fallback inside the [try] that raises is tried once more by the
    handler; whichever of the two returns, the answer is ungrounded. *)
Lemma fallback_or_handler_ungrounded (st st' : ChatState) (w w' : World) :
  try_except (general_llm E st) (fun _ => general_llm E st) w = (Ok st', w') ->
  ungrounded E (query st) st'.
Proof.
  unfold try_except.
  destruct (general_llm E st w) as [[st1|e] w1] eqn:H1.
  - intros [= <- <-]. eapply general_llm_ungrounded; eassumption.
  - apply general_llm_ungrounded.
Qed.

(** [run_chat] is the answer step run where classification and
    ingestion leave off. *)
Lemma run_from_S (steps : nat) (n : node) (st : ChatState) :
  run_from E (S steps) n st =
  (state' <- node_action E n st ;;
   next <- lift (next_node n state') ;;
   match next with
   | Some n' => run_from E steps n' state'
   | None => ret state'
   end).
Proof. reflexivity. Qed.

Lemma run_from_rag_query (steps : nat) (st : ChatState) (w : World) :
  run_from E (S steps) rag_query st w = rag_query_node E st w.
Proof.
  rewrite run_from_S. cbn [node_action next_node]. unfold bind, lift, ret.
  destruct (rag_query_node E st w) as [[st'|e] w']; reflexivity.
Qed.

Lemma run_chat_entry (q : string) (w : World) :
  run_chat E q w = rag_query_node E (entry_state E q) (entry_world E q w).
Proof.
  unfold run_chat, build_graph, recursion_limit, entry_world, entry_state.
  rewrite run_from_S. cbn [node_action]. unfold classify_node.
  unfold bind at 1, ret at 1. cbn [query answer].
  unfold bind at 1, lift at 1, next_node, route_classify. cbn [urls].
  destruct (extract_urls E q) as [|url rest] eqn:Hurls.
  - cbn [truthy_list]. change (path_map "rag_query") with (Some rag_query).
    cbv beta iota. rewrite run_from_rag_query. reflexivity.
  - cbn [truthy_list]. change (path_map "ingest") with (Some ingest).
    cbv beta iota. rewrite run_from_ingest, run_from_rag_query. reflexivity.
Qed.

End Answering.

Section AnswerCases.
Variable E : Env.

Lemma rag_query_search_fails (st : ChatState) (w : World) :
  is_Raise (chroma_search E (collection w) (query st) 5) ->
  rag_query_try_except E st w = general_llm E st w.
Proof.
  intros Hdown.
  unfold rag_query_try_except, try_except, rag_query_try, similarity_search_with_score, bind at 1.
  destruct (chroma_search E (collection w) (query st) 5); [destruct Hdown|reflexivity].
Qed.

Lemma rag_query_nothing_relevant (st : ChatState) (w : World) retrieved :
  chroma_search E (collection w) (query st) 5 = Ok retrieved ->
  relevance_gate E retrieved = [] ->
  rag_query_try_except E st w =
  try_except (general_llm E st) (fun _ => general_llm E st) w.
Proof.
  intros Hsearch Hgate.
  unfold rag_query_try_except, try_except, rag_query_try, similarity_search_with_score, bind at 1.
  rewrite Hsearch. cbv beta iota zeta. rewrite Hgate. reflexivity.
Qed.

Lemma qa_run (q : string) (w : World) retrieved :
  chroma_search E (collection w) q 5 = Ok retrieved ->
  qa E q w =
  match llm_complete E (llm_log w) (grounded_prompt q retrieved) with
  | Ok ans => (Ok (ans, map fst retrieved), asked (grounded_prompt q retrieved) w)
  | Raise e => (Raise e, asked (grounded_prompt q retrieved) w)
  end.
Proof.
  intros Hsearch.
  unfold qa, Retriever.get_retriever, similarity_search, similarity_search_with_score,
    llm_invoke, bind, ret.
  rewrite Hsearch. cbv beta iota zeta. fold (grounded_prompt q retrieved).
  destruct (llm_complete E (llm_log w) (grounded_prompt q retrieved)); reflexivity.
Qed.

Lemma rag_query_relevant (st : ChatState) (w : World) retrieved :
  chroma_search E (collection w) (query st) 5 = Ok retrieved ->
  relevance_gate E retrieved <> [] ->
  rag_query_try_except E st w =
  let p := grounded_prompt (query st) retrieved in
  match llm_complete E (llm_log w) p with
  | Ok ans =>
      if says_no_info ans then
        try_except (general_llm E st) (fun _ => general_llm E st) (asked p w)
      else
        (Ok {| query := query st; urls := urls st; answer := ans;
               sources := remove_dups (map doc_source (map fst retrieved));
               used_rag := true |}, asked p w)
  | Raise e => general_llm E st (asked p w)
  end.
Proof.
  intros Hsearch Hgate.
  unfold rag_query_try_except, rag_query_try, similarity_search_with_score.
  unfold try_except at 1, bind at 1.
  rewrite Hsearch. cbv beta iota zeta.
  destruct (relevance_gate E retrieved) as [|ds rest]; [congruence|].
  cbn [truthy_list]. unfold bind at 1. rewrite (qa_run _ _ _ Hsearch).
  destruct (llm_complete E (llm_log w) (grounded_prompt (query st) retrieved)) as [ans|e];
    [|reflexivity].
  cbn [fst snd]. destruct (says_no_info ans); reflexivity.
Qed.


(** The two calls before the [try]. *)
Lemma rag_query_node_run (st : ChatState) (w : World) :
  rag_query_node E st w =
  match the_llm E with
  | Ok _ =>
      match the_vectorstore E with
      | Ok _ => rag_query_try_except E st w
      | Raise e => (Raise e, w)
      end
  | Raise e => (Raise e, w)
  end.
Proof.
  unfold rag_query_node, get_llm, get_vectorstore, bind, lift.
  destruct (the_llm E); [|reflexivity]. destruct (the_vectorstore E); reflexivity.
Qed.

Lemma rag_query_node_built (st : ChatState) (w : World) :
  handles_built E -> rag_query_node E st w = rag_query_try_except E st w.
Proof.
  intros [[llm Hllm] [vs Hvs]]. rewrite rag_query_node_run, Hllm, Hvs. reflexivity.
Qed.

(** A search that returns, and a completion that returns, come from a
    store and a model that are there. *)
Lemma chroma_search_built coll (q : string) (k : nat) retrieved :
  chroma_search E coll q k = Ok retrieved -> exists vs, the_vectorstore E = Ok vs.
Proof. unfold chroma_search. destruct (the_vectorstore E); [eauto|discriminate]. Qed.

Lemma llm_complete_built (log : list string) (p a : string) :
  llm_complete E log p = Ok a -> exists llm, the_llm E = Ok llm.
Proof. unfold llm_complete. destruct (the_llm E); [eauto|discriminate]. Qed.

Lemma rag_query_node_cases (st : ChatState) (w : World) r (w' : World) :
  rag_query_node E st w = (r, w') ->
  (handles_built E /\ rag_query_try_except E st w = (r, w'))
  \/ (w' = w /\ exists e, r = Raise e /\
        (the_llm E = Raise e \/
         (exists llm, the_llm E = Ok llm) /\ the_vectorstore E = Raise e)).
Proof.
  rewrite rag_query_node_run. unfold handles_built.
  destruct (the_llm E) as [llm|e1] eqn:Hllm.
  - destruct (the_vectorstore E) as [vs|e2] eqn:Hvs.
    + intros Hrun. left. eauto.
    + intros [= <- <-]. right. split; [reflexivity|]. exists e2. eauto.
  - intros [= <- <-]. right. split; [reflexivity|]. exists e1. eauto.
Qed.

End AnswerCases.

(** C1. A run on which the claim fails: two chunks are retrieved, one
    passes the gate and one does not, the model answers without a refusal
    phrase. The result is marked [used_rag] and its sources hold the URL
    of the chunk that did not pass, next to the URL of the one that did. *)
Theorem C1_sources_hold_url_of_chunk_outside_gate :
  exists st w',
    run_chat Fixture.E_grounded "capital of France?" Fixture.w0 = (Ok st, w') /\
    relevance_gate Fixture.E_grounded [Fixture.near; Fixture.far] = [Fixture.near] /\
    says_no_info (answer st) = false /\
    used_rag st = true /\
    map doc_source (map fst (relevance_gate Fixture.E_grounded [Fixture.near; Fixture.far]))
      = ["https://a.example/p"] /\
    sources st = ["https://a.example/p"; "https://b.example/q"].
Proof.
  destruct (run_chat Fixture.E_grounded "capital of France?" Fixture.w0) as [r w'] eqn:Hrun.
  vm_compute in Hrun. injection Hrun as <- <-.
  eexists _, _. split; [reflexivity|].
  repeat split; vm_compute; reflexivity.
Qed.




(** C3. When a chunk passes the gate but the candidate answer of the
    grounded call holds a refusal phrase, whatever the case of its
    letters, the candidate is dropped: every result the run returns has
    [used_rag=false], no sources, and an answer that is a completion of
    the conversational prompt for the raw query; and when that completion
    succeeds the run returns it. *)
Theorem C3_refusal_drops_grounded_answer (E : Env) (q : string) (w : World)
    (retrieved : list (Document * Q)) (candidate : string) :
  chroma_search E (collection (entry_world E q w)) q 5 = Ok retrieved ->
  (exists doc score, (doc, score) ∈ retrieved /\ (score < RELEVANCE_THRESHOLD E)%Q) ->
  llm_complete E (llm_log (entry_world E q w)) (grounded_prompt q retrieved) = Ok candidate ->
  mentions_refusal candidate ->
  (forall st w', run_chat E q w = (Ok st, w') -> ungrounded E q st)
  /\ (forall a,
        llm_complete E (grounded_prompt q retrieved :: llm_log (entry_world E q w))
          (general_prompt q) = Ok a ->
        exists w', run_chat E q w = (Ok (fallback_state q (extract_urls E q) a), w')).
Proof.
  intros Hsearch Hgate Hcand Hrefusal.
  apply relevance_gate_some in Hgate.
  apply says_no_info_iff in Hrefusal.
  assert (Hbuilt : handles_built E).
  { split; [eapply llm_complete_built; exact Hcand|eapply chroma_search_built; exact Hsearch]. }
  rewrite run_chat_entry, (rag_query_node_built E _ _ Hbuilt).
  rewrite (rag_query_relevant E (entry_state E q) _ _ Hsearch Hgate).
  cbv zeta. cbn [entry_state query]. rewrite Hcand, Hrefusal. split.
  - intros st w' Hrun.
    exact (fallback_or_handler_ungrounded E (entry_state E q) _ _ _ Hrun).
  - intros a Ha. unfold try_except.
    rewrite (general_llm_run E (entry_state E q)). cbn [entry_state query urls asked llm_log].
    rewrite Ha. eauto.
Qed.

Lemma C3_witness :
  exists w',
    run_chat Fixture.E_refusing "capital of France?" Fixture.w0 =
    (Ok (fallback_state "capital of France?" [] "Paris, I think."), w').
Proof.
  refine (proj2 (C3_refusal_drops_grounded_answer Fixture.E_refusing "capital of France?"
                   Fixture.w0 [Fixture.near; Fixture.far] Fixture.refusal
                   eq_refl _ eq_refl _) "Paris, I think." eq_refl).
  - exists (fst Fixture.near), (snd Fixture.near).
    split; [left|reflexivity].
  - exists "don't have enough information", "I ", "Don't Have Enough Information",
      " in the provided context to answer that question.".
    split; [left; reflexivity|]. split; reflexivity.
Defined.

(** C4. The relevance gate keeps exactly the retrieved chunks whose
    distance is strictly below the threshold, in their order; the
    threshold is the configured value, and 0.5 when none is configured.
    When the search returns and no retrieved chunk is below the threshold,
    every result [run_chat] returns has [used_rag=false], no sources and
    an ungrounded answer, and it returns one as soon as the conversational
    completion succeeds. *)
Theorem C4_gate_is_strict_and_empty_gate_falls_back (E : Env) (q : string) (w : World)
    (retrieved : list (Document * Q)) :
  relevance_gate E retrieved =
    filter (fun ds => (ds.2 < RELEVANCE_THRESHOLD E)%Q) retrieved
  /\ (forall doc score,
        (doc, score) ∈ relevance_gate E retrieved <->
        (doc, score) ∈ retrieved /\ (score < RELEVANCE_THRESHOLD E)%Q)
  /\ (env_RELEVANCE_THRESHOLD E = None -> RELEVANCE_THRESHOLD E = (1 # 2)%Q)
  /\ (forall configured,
        env_RELEVANCE_THRESHOLD E = Some configured -> RELEVANCE_THRESHOLD E = configured)
  /\ (chroma_search E (collection (entry_world E q w)) q 5 = Ok retrieved ->
      (forall doc score,
         (doc, score) ∈ retrieved -> ~ (score < RELEVANCE_THRESHOLD E)%Q) ->
      (forall st w', run_chat E q w = (Ok st, w') -> ungrounded E q st)
      /\ (forall a,
            llm_complete E (llm_log (entry_world E q w)) (general_prompt q) = Ok a ->
            exists w', run_chat E q w = (Ok (fallback_state q (extract_urls E q) a), w'))).
Proof.
  split; [apply relevance_gate_filter|]. split.
  { intros doc score. rewrite relevance_gate_filter, list_elem_of_filter. cbn [snd]. tauto. }
  split.
  { intros Hnone. unfold RELEVANCE_THRESHOLD. rewrite Hnone. reflexivity. }
  split.
  { intros configured Hsome. unfold RELEVANCE_THRESHOLD. rewrite Hsome. reflexivity. }
  intros Hsearch Hfar. apply relevance_gate_none in Hfar.
  pose proof (chroma_search_built E _ _ _ _ Hsearch) as Hstore.
  rewrite run_chat_entry. split.
  - intros st w' Hrun.
    apply rag_query_node_cases in Hrun as [[_ Hrun]|(_ & e & He & _)]; [|discriminate].
    rewrite (rag_query_nothing_relevant E (entry_state E q) _ _ Hsearch Hfar) in Hrun.
    exact (fallback_or_handler_ungrounded E (entry_state E q) _ _ _ Hrun).
  - intros a Ha.
    assert (Hbuilt : handles_built E).
    { split; [eapply llm_complete_built; exact Ha|exact Hstore]. }
    rewrite (rag_query_node_built E _ _ Hbuilt).
    rewrite (rag_query_nothing_relevant E (entry_state E q) _ _ Hsearch Hfar).
    unfold try_except.
    rewrite (general_llm_run E (entry_state E q)). cbn [entry_state query urls].
    rewrite Ha. eauto.
Qed.

Lemma C4_witness :
  RELEVANCE_THRESHOLD Fixture.E_far = (1 # 2)%Q
  /\ RELEVANCE_THRESHOLD Fixture.E_strict = (1 # 20)%Q
  /\ exists w',
       run_chat Fixture.E_far "how is bread made?" Fixture.w0 =
       (Ok (fallback_state "how is bread made?" [] "Flour, water and salt."), w').
Proof.
  split; [|split].
  - exact (proj1 (proj2 (proj2 (C4_gate_is_strict_and_empty_gate_falls_back
             Fixture.E_far "how is bread made?" Fixture.w0 [Fixture.far]))) eq_refl).
  - exact (proj1 (proj2 (proj2 (proj2 (C4_gate_is_strict_and_empty_gate_falls_back
             Fixture.E_strict "capital of France?" Fixture.w0 [Fixture.near; Fixture.far]))))
             (1 # 20)%Q eq_refl).
  - refine (proj2 (proj2 (proj2 (proj2 (proj2 (C4_gate_is_strict_and_empty_gate_falls_back
              Fixture.E_far "how is bread made?" Fixture.w0 [Fixture.far])))) eq_refl _)
              "Flour, water and salt." eq_refl).
    intros doc score Hin. apply list_elem_of_singleton in Hin.
    injection Hin as _ ->. vm_compute. discriminate.
Defined.

(** C10. Whatever [run_chat] returned, a response of the /chat handler
    carries [used_rag=false]: the handler builds the response from the
    answer and the sources only, so the field keeps the default of the
    class, also when the result of [run_chat] says [used_rag=true]. *)
Theorem C10_chat_response_never_reports_rag (E : Env) (req : Main.ChatRequest) (w : World) :
  match Main.chat E req w with
  | (Main.Returned response, _) => Main.used_rag response = false
  | (Main.HTTPException _ _, _) => True
  end
  /\ (forall result w',
        run_chat E (Main.query req) w = (Ok result, w') ->
        Main.chat E req w =
        (Main.Returned {| Main.answer := answer result;
                          Main.sources := Some (sources result);
                          Main.used_rag := false;
                          Main.status := "success" |}, w')).
Proof.
  unfold Main.chat. split.
  - destruct (run_chat E (Main.query req) w) as [[result|e] w']; [reflexivity|].
    destruct (is_ValueError e); exact I.
  - intros result w' ->. reflexivity.
Qed.

Lemma C10_witness :
  exists result w',
    run_chat Fixture.E_grounded "capital of France?" Fixture.w0 = (Ok result, w') /\
    used_rag result = true /\
    Main.chat Fixture.E_grounded {| Main.query := "capital of France?" |} Fixture.w0 =
    (Main.Returned {| Main.answer := "Paris.";
                      Main.sources := Some ["https://a.example/p"; "https://b.example/q"];
                      Main.used_rag := false;
                      Main.status := "success" |}, w').
Proof.
  destruct (run_chat Fixture.E_grounded "capital of France?" Fixture.w0) as [r w'] eqn:Hrun.
  assert (Hr : r = Ok {| query := "capital of France?"; urls := []; answer := "Paris.";
                         sources := ["https://a.example/p"; "https://b.example/q"];
                         used_rag := true |}).
  { vm_compute in Hrun. injection Hrun as <- _. reflexivity. }
  subst r. eexists _, w'. split; [reflexivity|]. split; [reflexivity|].
  exact (proj2 (C10_chat_response_never_reports_rag Fixture.E_grounded
                  {| Main.query := "capital of France?" |} Fixture.w0) _ _ Hrun).
Defined.

(* ===================================================================== *)
(** * URL extraction                                                      *)
(* ===================================================================== *)

Lemma findall_unfold (s : string) :
  findall s =
  match URL_PATTERN s with
  | Some (m, rest) => m :: findall rest
  | None => match s with EmptyString => [] | String _ t => findall t end
  end.
Proof.
  funelim (findall s).
  - rewrite e. reflexivity.
  - reflexivity.
  - rewrite e. reflexivity.
Qed.

Lemma strip_prefix_split (p s r : string) :
  strip_prefix p s = Some r -> s = p +:+ r.
Proof.
  revert s. induction p as [|a p IH]; intros s; cbn [strip_prefix].
  - intros [= ->]. reflexivity.
  - destruct s as [|b s]; [discriminate|].
    destruct (Ascii.eqb_spec a b) as [->|]; [|discriminate].
    intros H. rewrite (IH _ H). reflexivity.
Qed.

Lemma strip_prefix_app_some (p s r x : string) :
  strip_prefix p s = Some r -> strip_prefix p (s +:+ x) = Some (r +:+ x).
Proof.
  revert s. induction p as [|a p IH]; intros s; cbn [strip_prefix].
  - intros [= ->]. reflexivity.
  - destruct s as [|b s]; [discriminate|]. rewrite string_app_cons.
    destruct (Ascii.eqb a b); [apply IH|discriminate].
Qed.

(** A prefix without white space is not completed by text that starts
    with white space. *)
Lemma strip_prefix_app_none (p s x : string) (sp : ascii) :
  isspace sp = true ->
  contains (String sp EmptyString) p = false ->
  strip_prefix p s = None ->
  strip_prefix p (s +:+ String sp x) = None.
Proof.
  intros Hsp. revert s. induction p as [|a p IH]; intros s Hp; cbn [strip_prefix].
  - discriminate.
  - rewrite contains_unfold in Hp. apply orb_false_iff in Hp as [Ha Hp].
    cbn [startswith] in Ha.
    destruct s as [|b s].
    + intros _. rewrite string_app_nil_l.
      destruct (Ascii.eqb_spec a sp) as [->|]; [|reflexivity].
      rewrite Ascii.eqb_refl in Ha. discriminate.
    + rewrite string_app_cons. destruct (Ascii.eqb a b); [apply IH; exact Hp|reflexivity].
Qed.

Lemma span_nonspace_split (s : string) :
  s = (span_nonspace s).1 +:+ (span_nonspace s).2.
Proof.
  induction s as [|c t IH]; [reflexivity|]. cbn [span_nonspace].
  destruct (isspace c); [reflexivity|].
  destruct (span_nonspace t) as [run rest]. cbn [fst snd] in *.
  rewrite string_app_cons, <- IH. reflexivity.
Qed.

Lemma span_nonspace_app (s x : string) (sp : ascii) :
  isspace sp = true ->
  span_nonspace (s +:+ String sp x) =
  ((span_nonspace s).1, (span_nonspace s).2 +:+ String sp x).
Proof.
  intros Hsp. induction s as [|c t IH].
  - rewrite string_app_nil_l. cbn [span_nonspace]. rewrite Hsp. reflexivity.
  - rewrite string_app_cons. cbn [span_nonspace].
    destruct (isspace c); [reflexivity|].
    rewrite IH. destruct (span_nonspace t) as [run rest]. reflexivity.
Qed.

Lemma match_scheme_split (s pre t : string) :
  match_scheme s = Some (pre, t) -> s = pre +:+ t.
Proof.
  unfold match_scheme.
  destruct (strip_prefix "http" s) as [r|] eqn:Hr; [|discriminate].
  apply strip_prefix_split in Hr. subst s.
  assert (Hw : option_map (pair "http://") (strip_prefix "://" r) = Some (pre, t) ->
               "http" +:+ r = pre +:+ t).
  { destruct (strip_prefix "://" r) as [t'|] eqn:Ht; [|discriminate].
    intros [= <- <-]. apply strip_prefix_split in Ht. subst r. reflexivity. }
  destruct (strip_prefix "s" r) as [r'|] eqn:Hr'; [|exact Hw].
  destruct (strip_prefix "://" r') as [t'|] eqn:Ht'; [|exact Hw].
  intros [= <- <-]. apply strip_prefix_split in Hr', Ht'. subst r r'. reflexivity.
Qed.

Lemma match_scheme_app (s x : string) (sp : ascii) :
  isspace sp = true ->
  match_scheme (s +:+ String sp x) =
  match match_scheme s with
  | Some (pre, t) => Some (pre, t +:+ String sp x)
  | None => None
  end.
Proof.
  intros Hsp.
  assert (Hnone : forall p u,
             contains (String sp EmptyString) p = false ->
             strip_prefix p u = None -> strip_prefix p (u +:+ String sp x) = None).
  { intros p u. apply strip_prefix_app_none. exact Hsp. }
  assert (Hfree : forall p, forallb (fun c => negb (isspace c)) (list_ascii_of_string p) = true ->
                            contains (String sp EmptyString) p = false).
  { induction p as [|c p IH]; [reflexivity|]. cbn [list_ascii_of_string forallb].
    intros H. apply andb_true_iff in H as [Hc Hp]. rewrite contains_unfold, (IH Hp).
    cbn [startswith]. destruct (Ascii.eqb_spec sp c) as [->|]; [|reflexivity].
    rewrite Hsp in Hc. discriminate. }
  unfold match_scheme.
  destruct (strip_prefix "http" s) as [r|] eqn:Hr.
  2: { rewrite (Hnone _ _ (Hfree "http" eq_refl) Hr). reflexivity. }
  rewrite (strip_prefix_app_some _ _ _ _ Hr).
  assert (Hw : option_map (pair "http://") (strip_prefix "://" (r +:+ String sp x)) =
               match option_map (pair "http://") (strip_prefix "://" r) with
               | Some (pre, t) => Some (pre, t +:+ String sp x)
               | None => None
               end).
  { destruct (strip_prefix "://" r) as [t|] eqn:Ht.
    - rewrite (strip_prefix_app_some _ _ _ _ Ht). reflexivity.
    - rewrite (Hnone _ _ (Hfree "://" eq_refl) Ht). reflexivity. }
  destruct (strip_prefix "s" r) as [r'|] eqn:Hr'.
  2: { rewrite (Hnone _ _ (Hfree "s" eq_refl) Hr'). exact Hw. }
  rewrite (strip_prefix_app_some _ _ _ _ Hr').
  destruct (strip_prefix "://" r') as [t'|] eqn:Ht'.
  - rewrite (strip_prefix_app_some _ _ _ _ Ht'). reflexivity.
  - rewrite (Hnone _ _ (Hfree "://" eq_refl) Ht'). exact Hw.
Qed.

Lemma URL_PATTERN_split (s m rest : string) :
  URL_PATTERN s = Some (m, rest) -> s = m +:+ rest.
Proof.
  unfold URL_PATTERN.
  destruct (match_scheme s) as [[pre t]|] eqn:Hs; [|discriminate].
  apply match_scheme_split in Hs. subst s.
  pose proof (span_nonspace_split t) as Ht.
  destruct (span_nonspace t) as [run rest']. cbn [fst snd] in Ht.
  destruct run as [|c run]; [discriminate|].
  intros [= <- <-]. rewrite Ht, string_app_assoc. reflexivity.
Qed.

Lemma URL_PATTERN_app (s x : string) (sp : ascii) :
  isspace sp = true ->
  URL_PATTERN (s +:+ String sp x) =
  match URL_PATTERN s with
  | Some (m, rest) => Some (m, rest +:+ String sp x)
  | None => None
  end.
Proof.
  intros Hsp. unfold URL_PATTERN. rewrite (match_scheme_app _ _ _ Hsp).
  destruct (match_scheme s) as [[pre t]|]; [|reflexivity].
  rewrite (span_nonspace_app _ _ _ Hsp).
  destruct (span_nonspace t) as [run rest]. cbn [fst snd].
  destruct run; reflexivity.
Qed.

(** White space ends every match: the matches of a text cut at a white
    space are those of the two parts. *)
Lemma findall_app (sp : ascii) :
  isspace sp = true ->
  forall s x, findall (s +:+ String sp x) = (findall s ++ findall x)%list.
Proof.
  intros Hsp s. funelim (findall s); intros x.
  - rewrite findall_unfold, (URL_PATTERN_app _ _ _ Hsp), e.
    rewrite (H sp Hsp rest eq_refl eq_refl x). reflexivity.
  - rewrite string_app_nil_l, findall_unfold.
    replace (URL_PATTERN (String sp x)) with (@None (string * string)); [reflexivity|].
    symmetry. apply (URL_PATTERN_app EmptyString x sp Hsp).
  - rewrite findall_unfold, (URL_PATTERN_app _ _ _ Hsp), e.
    rewrite string_app_cons. exact (H sp Hsp t eq_refl eq_refl x).
Qed.

Lemma occurs_in_order_later (ms : list string) (pre text : string) :
  occurs_in_order ms text -> occurs_in_order ms (pre +:+ text).
Proof.
  intros H. destruct H as [text|m ms pre' post H]; [constructor|].
  rewrite <- string_app_assoc. constructor. exact H.
Qed.

Lemma occurs_in_order_filter (f : string -> bool) (ms : list string) (text : string) :
  occurs_in_order ms text -> occurs_in_order (List.filter f ms) text.
Proof.
  induction 1 as [text|m ms pre post H IH]; [constructor|].
  cbn [List.filter]. destruct (f m); [constructor; exact IH|].
  rewrite <- string_app_assoc. apply occurs_in_order_later. exact IH.
Qed.

Lemma findall_occurs_in_order (s : string) : occurs_in_order (findall s) s.
Proof.
  funelim (findall s).
  - pose proof (URL_PATTERN_split _ _ _ e) as Hs. clear - H Hs. subst s.
    apply (occurs_cons m (findall rest) EmptyString rest). exact H.
  - constructor.
  - apply (occurs_in_order_later _ (String a EmptyString) t). exact H.
Qed.

(** C8, the claim as stated fails: a URL whose network location holds
    a port only, or user information only, passes the test on [netloc]
    and is returned, and the host of its parse is empty. *)
Lemma C8_url_with_empty_host_is_returned :
  extract_urls Fixture.E_model_down "see http://:80 or http://user:pw@" =
    ["http://:80"; "http://user:pw@"] /\
  urlparse Fixture.E_model_down "http://:80" =
    Ok {| scheme := "http"; netloc := ":80" |} /\
  host_of_netloc ":80" = EmptyString /\
  urlparse Fixture.E_model_down "http://user:pw@" =
    Ok {| scheme := "http"; netloc := "user:pw@" |} /\
  host_of_netloc "user:pw@" = EmptyString /\
  ~ (forall url, url ∈ extract_urls Fixture.E_model_down "see http://:80 or http://user:pw@" ->
       exists parsed, urlparse Fixture.E_model_down url = Ok parsed /\
                      (scheme parsed = "http" \/ scheme parsed = "https") /\
                      host_of_netloc (netloc parsed) <> EmptyString).
Proof.
  repeat (split; [vm_compute; reflexivity|]).
  intros Hall.
  destruct (Hall "http://:80") as (parsed & Hparsed & _ & Hhost).
  - vm_compute. left.
  - vm_compute in Hparsed. injection Hparsed as <-. apply Hhost. reflexivity.
Qed.

(** C8, amended. Every string [extract_urls] returns parses again with
    scheme [http] or [https] and a non-empty network location ([netloc]:
    user information, host and port together, so that the host alone may
    be empty); the strings lie in the text one after the other in the
    order of the result; cutting the text at a blank gives the results of
    the two parts one after the other, so that a URL that occurs twice is
    returned twice; the empty text gives the empty list. *)
Theorem C8_extract_urls_valid_ordered_not_deduplicated (E : Env) (text : string) :
  (forall url, url ∈ extract_urls E text ->
     exists parsed, urlparse E url = Ok parsed /\
                    (scheme parsed = "http" \/ scheme parsed = "https") /\
                    netloc parsed <> EmptyString)
  /\ occurs_in_order (extract_urls E text) text
  /\ (forall t1 t2, extract_urls E (t1 +:+ " " +:+ t2) =
                    (extract_urls E t1 ++ extract_urls E t2)%list)
  /\ (forall url, extract_urls E (url +:+ " " +:+ url) =
                  (extract_urls E url ++ extract_urls E url)%list)
  /\ extract_urls E EmptyString = [].
Proof.
  assert (Happ : forall t1 t2, extract_urls E (t1 +:+ " " +:+ t2) =
                               (extract_urls E t1 ++ extract_urls E t2)%list).
  { intros t1 t2. unfold extract_urls.
    change (t1 +:+ " " +:+ t2) with (t1 +:+ String " "%char t2).
    rewrite (findall_app " "%char eq_refl). apply List.filter_app. }
  split; [|split; [|split; [exact Happ|split; [intros url; apply Happ|reflexivity]]]].
  - intros url Hin. unfold extract_urls in Hin.
    apply list_elem_of_In, List.filter_In in Hin as [_ Hvalid].
    unfold validated in Hvalid.
    destruct (urlparse E url) as [parsed|e]; [|discriminate].
    exists parsed. apply andb_true_iff in Hvalid as [Hscheme Hnetloc].
    split; [reflexivity|]. split.
    + apply orb_true_iff in Hscheme as [H|H]; apply bool_decide_eq_true in H; auto.
    + intros Hnil. rewrite Hnil in Hnetloc. discriminate.
  - unfold extract_urls. apply occurs_in_order_filter, findall_occurs_in_order.
Qed.

Lemma C8_witness :
  exists parsed,
    urlparse Fixture.E_model_down "https://a.b/c" = Ok parsed /\
    (scheme parsed = "http" \/ scheme parsed = "https") /\
    netloc parsed <> EmptyString.
Proof.
  refine (proj1 (C8_extract_urls_valid_ordered_not_deduplicated Fixture.E_model_down
                   "see https://a.b/c and ftp://x") "https://a.b/c" _).
  vm_compute. left.
Defined.

(** The example of the specification, and a URL given twice. *)
Example extract_urls_example :
  extract_urls Fixture.E_model_down "see https://a.b/c and ftp://x" = ["https://a.b/c"] /\
  extract_urls Fixture.E_model_down "http://a.b http:///nohost http://a.b"
    = ["http://a.b"; "http://a.b"].
Proof. split; vm_compute; reflexivity. Qed.

(* ===================================================================== *)
(** * Stripping                                                           *)
(* ===================================================================== *)

Lemma lstrip_empty_iff (s : string) : lstrip s = EmptyString <-> all_space s = true.
Proof.
  induction s as [|c t IH]; cbn [lstrip all_space]; [tauto|].
  destruct (isspace c); cbn [andb]; [exact IH|]. split; discriminate.
Qed.

Lemma lstrip_first (s : string) :
  lstrip s = EmptyString \/ exists c t, lstrip s = String c t /\ isspace c = false.
Proof.
  induction s as [|c t IH]; cbn [lstrip]; [left; reflexivity|].
  destruct (isspace c) eqn:Hc; [exact IH|]. right. eauto.
Qed.

Lemma rstrip_cons_nonspace (c : ascii) (t : string) :
  isspace c = false -> exists r, rstrip (String c t) = String c r.
Proof.
  intros Hc. cbn [rstrip]. destruct (rstrip t); [rewrite Hc|]; eauto.
Qed.

Lemma rstrip_last (s : string) :
  rstrip s = EmptyString \/ exists c, last_char (rstrip s) = Some c /\ isspace c = false.
Proof.
  induction s as [|c t IH]; [left; reflexivity|]. cbn [rstrip].
  destruct (rstrip t) as [|d r] eqn:Hr.
  - destruct (isspace c) eqn:Hc; [left; reflexivity|]. right. exists c. auto.
  - right. destruct IH as [IH|IH]; [discriminate|]. exact IH.
Qed.

Lemma lstrip_length (s : string) : String.length (lstrip s) <= String.length s.
Proof.
  induction s as [|c t IH]; cbn [lstrip]; [reflexivity|].
  destruct (isspace c); cbn [String.length]; lia.
Qed.

Lemma rstrip_length (s : string) : String.length (rstrip s) <= String.length s.
Proof.
  induction s as [|c t IH]; [reflexivity|]. cbn [rstrip].
  destruct (rstrip t) as [|d r]; [destruct (isspace c)|]; cbn [String.length] in *; lia.
Qed.

Lemma strip_length (s : string) : String.length (strip s) <= String.length s.
Proof.
  unfold strip. pose proof (rstrip_length (lstrip s)). pose proof (lstrip_length s). lia.
Qed.

Lemma strip_empty_iff (s : string) : strip s = EmptyString <-> all_space s = true.
Proof.
  rewrite <- lstrip_empty_iff. unfold strip.
  destruct (lstrip_first s) as [->|(c & t & -> & Hc)]; [tauto|].
  destruct (rstrip_cons_nonspace c t Hc) as [r ->]. split; discriminate.
Qed.

Lemma strip_trimmed (s : string) : strip s <> EmptyString -> trimmed (strip s).
Proof.
  unfold strip. intros Hne.
  destruct (lstrip_first s) as [Hl|(c & t & Hl & Hc)]; rewrite Hl in *;
    [exfalso; apply Hne; reflexivity|].
  split.
  - destruct (rstrip_cons_nonspace c t Hc) as [r ->]. exists c. auto.
  - destruct (rstrip_last (String c t)) as [H|H]; [congruence|exact H].
Qed.

Lemma rstrip_rstrip (s : string) : rstrip (rstrip s) = rstrip s.
Proof.
  induction s as [|c t IH]; [reflexivity|]. cbn [rstrip].
  destruct (rstrip t) as [|d r] eqn:Hr.
  - destruct (isspace c) eqn:Hc; [reflexivity|]. cbn [rstrip]. rewrite Hc. reflexivity.
  - change (rstrip (String c (String d r))) with
      (match rstrip (String d r) with
       | EmptyString => if isspace c then EmptyString else String c EmptyString
       | String x y => String c (String x y)
       end).
    rewrite IH. reflexivity.
Qed.

Lemma strip_strip (s : string) : strip (strip s) = strip s.
Proof.
  unfold strip.
  destruct (lstrip_first s) as [->|(c & t & -> & Hc)]; [reflexivity|].
  destruct (rstrip_cons_nonspace c t Hc) as [r Hr]. rewrite Hr.
  cbn [lstrip]. rewrite Hc, <- Hr. apply rstrip_rstrip.
Qed.

Lemma truthy_str_iff (s : string) : truthy_str s = true <-> s <> EmptyString.
Proof. destruct s; cbn; split; congruence. Qed.

(** X17. The request model accepts a raw query exactly when it has
    between 1 and 2000 characters and is not made of white space only;
    the query it hands on is the raw text stripped, which is already
    stripped, neither starts nor ends with white space and has between
    1 and 2000 characters. *)
Theorem X17_ChatRequest_accepts_and_trims (raw : string) :
  (forall req,
     Main.ChatRequest_parse raw = Ok req ->
     1 <= String.length raw <= 2000 /\
     all_space raw = false /\
     Main.query req = strip raw /\
     strip (Main.query req) = Main.query req /\
     trimmed (Main.query req) /\
     1 <= String.length (Main.query req) <= 2000)
  /\ (1 <= String.length raw <= 2000 ->
      all_space raw = false ->
      Main.ChatRequest_parse raw = Ok {| Main.query := strip raw |})
  /\ (String.length raw = 0 \/ 2000 < String.length raw \/ all_space raw = true ->
      is_Raise (Main.ChatRequest_parse raw)).
Proof.
  unfold Main.ChatRequest_parse.
  destruct (String.length raw <? 1)%nat eqn:Hlo; cbn [orb].
  { apply Nat.ltb_lt in Hlo. split; [discriminate|]. split; [lia|]. intros _. exact I. }
  apply Nat.ltb_ge in Hlo.
  destruct (2000 <? String.length raw)%nat eqn:Hhi.
  { apply Nat.ltb_lt in Hhi. split; [discriminate|]. split; [lia|]. intros _. exact I. }
  apply Nat.ltb_ge in Hhi.
  assert (Hraw : truthy_str raw = true).
  { apply truthy_str_iff. intros ->. cbn in Hlo. lia. }
  rewrite Hraw. cbn [negb orb].
  destruct (truthy_str (strip raw)) eqn:Hs; cbn [negb].
  - apply truthy_str_iff in Hs.
    assert (Hsp : all_space raw = false).
    { destruct (all_space raw) eqn:Ha; [|reflexivity].
      apply strip_empty_iff in Ha. contradiction. }
    split; [|split].
    + intros req [= <-]. cbn [Main.query].
      split; [lia|]. split; [exact Hsp|]. split; [reflexivity|].
      split; [apply strip_strip|]. split; [apply strip_trimmed; exact Hs|].
      pose proof (strip_length raw). destruct (strip raw); [congruence|].
      cbn [String.length] in *. lia.
    + reflexivity.
    + intros [H|[H|H]]; [lia|lia|congruence].
  - assert (Hsp : all_space raw = true).
    { apply strip_empty_iff. destruct (strip raw); [reflexivity|discriminate]. }
    split; [discriminate|]. split; [congruence|]. intros _. exact I.
Qed.

Lemma X17_witness :
  Main.ChatRequest_parse "  what is RAG?  " = Ok {| Main.query := strip "  what is RAG?  " |}
  /\ is_Raise (Main.ChatRequest_parse "   ").
Proof.
  split.
  - refine (proj1 (proj2 (X17_ChatRequest_accepts_and_trims "  what is RAG?  ")) _ _).
    + vm_compute. lia.
    + reflexivity.
  - refine (proj2 (proj2 (X17_ChatRequest_accepts_and_trims "   ")) _).
    right. right. reflexivity.
Defined.

(* ===================================================================== *)
(** * Text extraction                                                     *)
(* ===================================================================== *)






Lemma all_space_app (a b : string) : all_space (a +:+ b) = all_space a && all_space b.
Proof.
  induction a as [|c a IH]; [reflexivity|].
  rewrite string_app_cons. cbn [all_space]. rewrite IH, andb_assoc. reflexivity.
Qed.

(** The lines of blank text are blank. *)
Lemma splitlines_from_all_space (n : nat) :
  forall s cur,
    String.length s <= n ->
    all_space cur = true -> all_space s = true ->
    Forall (fun line => all_space line = true) (splitlines_from cur s).
Proof.
  induction n as [|n IH]; intros s cur Hn Hcur Hs.
  - destruct s; [|cbn in Hn; lia]. cbn [splitlines_from].
    destruct cur; repeat constructor. exact Hcur.
  - destruct s as [|c t]; cbn [splitlines_from].
    { destruct cur; repeat constructor. exact Hcur. }
    cbn [all_space String.length] in Hs, Hn. apply andb_true_iff in Hs as [Hc Ht].
    assert (Hrest : Forall (fun line => all_space line = true)
                      (cur :: splitlines_from EmptyString t)).
    { constructor; [exact Hcur|]. apply IH; [lia|reflexivity|exact Ht]. }
    destruct (is_linebreak c).
    + destruct (code c) as [|[|[|[|[|[|[|[|[|[|[|[|[|[|k]]]]]]]]]]]]]]; try exact Hrest.
      destruct t as [|c' t']; [exact Hrest|].
      destruct (code c' =? 10)%nat; [|exact Hrest].
      cbn [all_space String.length] in Ht, Hn. apply andb_true_iff in Ht as [_ Ht'].
      constructor; [exact Hcur|]. apply IH; [lia|reflexivity|exact Ht'].
    + apply IH; [lia| |exact Ht].
      rewrite all_space_app, Hcur. cbn [all_space]. rewrite Hc. reflexivity.
Qed.

Lemma filter_none {A} (f : A -> bool) (l : list A) :
  Forall (fun x => f x = false) l -> List.filter f l = [].
Proof.
  induction 1 as [|x l Hx Hl IH]; [reflexivity|]. cbn [List.filter]. rewrite Hx. exact IH.
Qed.

Lemma extract_text_blank (E : Env) (html raw : string) :
  soup_get_text E html = Ok raw ->
  all_space raw = true ->
  extract_text_from_html E html = Ok EmptyString.
Proof.
  intros Hsoup Hblank. unfold extract_text_from_html. rewrite Hsoup.
  rewrite filter_none; [reflexivity|].
  eapply Forall_impl;
    [apply (splitlines_from_all_space (String.length raw) raw EmptyString);
     [reflexivity|reflexivity|exact Hblank]|].
  intros line Hline. apply strip_empty_iff in Hline. cbn beta. rewrite Hline. reflexivity.
Qed.

(** What [ingest_url] does with a text that is too short. *)
Lemma ingest_url_insufficient (E : Env) (url : string) (force : bool) (w : World)
    (html text : string) :
  force = true \/ get_url_hash E url ∉ _ingested_urls w ->
  requests_get E (fetch_log w) url = Ok html ->
  extract_text_from_html E html = Ok text ->
  String.length text < 50 ->
  ingest_url E url force w =
  (Raise (mk_exn Exception
            ("Error processing URL: " +:+
             ("Insufficient content: only " +:+ str_of_nat (String.length text)
              +:+ " characters"))),
   {| _ingested_urls := _ingested_urls w; collection := collection w;
      fetch_log := url :: fetch_log w; llm_log := llm_log w |}).
Proof.
  intros Hruns Hget Htext Hshort.
  rewrite (ingest_url_runs _ _ _ _ Hruns).
  unfold try_except, ingest_try, http_get, bind at 1. rewrite Hget. cbv beta iota.
  unfold bind at 1, lift. rewrite Htext. cbv beta iota.
  apply Nat.ltb_lt in Hshort. rewrite Hshort. reflexivity.
Qed.



(** X5. A page whose visible text is white space only has the empty
    string as its extracted text, and ingesting it raises the
    "insufficient content" failure that counts 0 characters, with nothing
    stored and nothing recorded as ingested. *)
Theorem X5_blank_page_is_empty_and_rejected (E : Env) (url html raw : string)
    (force : bool) (w : World) :
  soup_get_text E html = Ok raw ->
  all_space raw = true ->
  extract_text_from_html E html = Ok EmptyString
  /\ (force = true \/ get_url_hash E url ∉ _ingested_urls w ->
      requests_get E (fetch_log w) url = Ok html ->
      exists w',
        ingest_url E url force w =
          (Raise (mk_exn Exception
                    "Error processing URL: Insufficient content: only 0 characters"), w') /\
        collection w' = collection w /\
        _ingested_urls w' = _ingested_urls w).
Proof.
  intros Hsoup Hblank.
  pose proof (extract_text_blank E html raw Hsoup Hblank) as Htext.
  split; [exact Htext|]. intros Hruns Hget.
  rewrite (ingest_url_insufficient E url force w html EmptyString Hruns Hget Htext)
    by (cbn; lia).
  eexists. split; [reflexivity|]. split; reflexivity.
Qed.

Lemma X5_witness :
  exists w',
    ingest_url Fixture.E_blank_page "https://a.example/p" false Fixture.w0 =
      (Raise (mk_exn Exception
                "Error processing URL: Insufficient content: only 0 characters"), w') /\
    collection w' = collection Fixture.w0 /\
    _ingested_urls w' = _ingested_urls Fixture.w0.
Proof.
  refine (proj2 (X5_blank_page_is_empty_and_rejected Fixture.E_blank_page
                   "https://a.example/p" "   " "   " false Fixture.w0 eq_refl eq_refl) _ eq_refl).
  right. cbn. set_solver.
Defined.

(* ===================================================================== *)
(** * The shape of extracted URLs                                         *)
(* ===================================================================== *)

Lemma match_scheme_pre (s pre t : string) :
  match_scheme s = Some (pre, t) -> pre = "http://" \/ pre = "https://".
Proof.
  unfold match_scheme.
  destruct (strip_prefix "http" s) as [r|]; [|discriminate].
  assert (Hw : option_map (pair "http://") (strip_prefix "://" r) = Some (pre, t) ->
               pre = "http://" \/ pre = "https://").
  { destruct (strip_prefix "://" r); [|discriminate]. intros [= <- _]. left. reflexivity. }
  destruct (strip_prefix "s" r) as [r'|]; [|exact Hw].
  destruct (strip_prefix "://" r'); [|exact Hw].
  intros [= <- _]. right. reflexivity.
Qed.

Lemma span_nonspace_no_space (s : string) : no_space (span_nonspace s).1 = true.
Proof.
  induction s as [|c t IH]; [reflexivity|]. cbn [span_nonspace].
  destruct (isspace c) eqn:Hc; [reflexivity|].
  destruct (span_nonspace t) as [run rest]. cbn [fst no_space] in *.
  rewrite Hc, IH. reflexivity.
Qed.

Lemma span_nonspace_all (run : string) :
  no_space run = true -> span_nonspace run = (run, EmptyString).
Proof.
  induction run as [|c t IH]; [reflexivity|]. cbn [no_space span_nonspace].
  intros H. apply andb_true_iff in H as [Hc Ht]. apply negb_true_iff in Hc.
  rewrite Hc, (IH Ht). reflexivity.
Qed.

Lemma URL_PATTERN_shaped (s m rest : string) :
  URL_PATTERN s = Some (m, rest) -> url_shaped m.
Proof.
  unfold URL_PATTERN.
  destruct (match_scheme s) as [[pre t]|] eqn:Hs; [|discriminate].
  apply match_scheme_pre in Hs.
  pose proof (span_nonspace_no_space t) as Hrun.
  destruct (span_nonspace t) as [run rest']. cbn [fst] in Hrun.
  destruct run as [|c run]; [discriminate|].
  intros [= <- _]. exists (String c run).
  split; [destruct Hs as [->| ->]; auto|]. split; [discriminate|exact Hrun].
Qed.

Lemma URL_PATTERN_whole (m : string) :
  url_shaped m -> URL_PATTERN m = Some (m, EmptyString).
Proof.
  intros (run & Hm & Hne & Hrun). unfold URL_PATTERN.
  assert (Hs : match_scheme m = Some ("http://", run) /\ m = "http://" +:+ run \/
               match_scheme m = Some ("https://", run) /\ m = "https://" +:+ run).
  { destruct Hm as [->| ->]; [left|right]; split; reflexivity. }
  destruct Hs as [[-> ->]|[-> ->]]; rewrite (span_nonspace_all _ Hrun);
    destruct run; congruence.
Qed.

Lemma URL_PATTERN_startswith (s m rest : string) :
  URL_PATTERN s = Some (m, rest) ->
  startswith "http://" s = true \/ startswith "https://" s = true.
Proof.
  unfold URL_PATTERN.
  destruct (match_scheme s) as [[pre t]|] eqn:Hs; [|discriminate]. intros _.
  pose proof (match_scheme_split _ _ _ Hs) as ->.
  destruct (match_scheme_pre _ _ _ Hs) as [->| ->]; [left|right]; apply startswith_app.
Qed.

Lemma findall_shaped (s : string) : forall m, m ∈ findall s -> url_shaped m.
Proof.
  funelim (findall s); intros m0 Hin.
  - apply elem_of_cons in Hin as [->|Hin]; [|apply H; exact Hin].
    eapply URL_PATTERN_shaped. exact e.
  - apply not_elem_of_nil in Hin. destruct Hin.
  - apply H. exact Hin.
Qed.

Lemma findall_single (m : string) : url_shaped m -> findall m = [m].
Proof.
  intros Hm. rewrite findall_unfold, (URL_PATTERN_whole _ Hm). reflexivity.
Qed.

Lemma contains_tail (p : string) (c : ascii) (t : string) :
  contains p (String c t) = false -> contains p t = false.
Proof. rewrite contains_unfold. intros H. apply orb_false_iff in H as [_ H]. exact H. Qed.

Lemma contains_startswith (p s : string) :
  contains p s = false -> startswith p s = false.
Proof. rewrite contains_unfold. intros H. apply orb_false_iff in H as [H _]. exact H. Qed.

Lemma findall_without_scheme (s : string) :
  contains "http://" s = false -> contains "https://" s = false -> findall s = [].
Proof.
  funelim (findall s); intros Hhttp Hhttps.
  - exfalso. apply contains_startswith in Hhttp, Hhttps.
    destruct (URL_PATTERN_startswith _ _ _ e) as [Hs|Hs]; congruence.
  - reflexivity.
  - apply H; eapply contains_tail; eassumption.
Qed.

Lemma extract_urls_elem (E : Env) (text url : string) :
  url ∈ extract_urls E text -> url_shaped url /\ validated E url = true.
Proof.
  unfold extract_urls. intros Hin.
  apply list_elem_of_In, List.filter_In in Hin as [Hin Hvalid].
  split; [|exact Hvalid]. eapply findall_shaped. apply list_elem_of_In. exact Hin.
Qed.

Lemma extract_urls_of_joined (E : Env) (l : list string) :
  Forall (fun u => url_shaped u /\ validated E u = true) l ->
  extract_urls E (join " " l) = l.
Proof.
  unfold extract_urls. induction 1 as [|u rest [Hu Hv] Hrest IH]; [reflexivity|].
  destruct rest as [|v rest].
  - cbn [join]. rewrite (findall_single _ Hu). cbn [List.filter]. rewrite Hv. reflexivity.
  - change (join " " (u :: v :: rest)) with (u +:+ String " "%char (join " " (v :: rest))).
    rewrite (findall_app " "%char eq_refl), List.filter_app, IH, (findall_single _ Hu).
    cbn [List.filter]. rewrite Hv. reflexivity.
Qed.

(** X1. Every URL [extract_urls] returns is [http://] or [https://]
    followed by at least one character, and holds no white space. *)
Theorem X1_extracted_urls_are_http_without_space (E : Env) (text url : string) :
  url ∈ extract_urls E text -> url_shaped url.
Proof. intros Hin. apply (extract_urls_elem E text url Hin). Qed.

Lemma X1_witness : url_shaped "https://a.b/c".
Proof.
  refine (X1_extracted_urls_are_http_without_space Fixture.E_model_down
            "see https://a.b/c and ftp://x" "https://a.b/c" _).
  vm_compute. left.
Defined.

(** X2. A text that holds neither [http://] nor [https://] yields no
    URL at all. *)
Theorem X2_no_scheme_no_urls (E : Env) (text : string) :
  contains "http://" text = false ->
  contains "https://" text = false ->
  extract_urls E text = [].
Proof.
  intros Hhttp Hhttps. unfold extract_urls.
  rewrite (findall_without_scheme _ Hhttp Hhttps). reflexivity.
Qed.

Lemma X2_witness :
  extract_urls Fixture.E_model_down "mail me at ftp://x or www.a.b, http is fine" = [].
Proof.
  refine (X2_no_scheme_no_urls Fixture.E_model_down
            "mail me at ftp://x or www.a.b, http is fine" _ _); vm_compute; reflexivity.
Defined.

(** X3. Extraction is stable: extracting from an extracted URL gives
    that URL back, and extracting from the extracted URLs written one
    after the other with blanks between them gives the same list. *)
Theorem X3_extraction_round_trip (E : Env) (text : string) :
  (forall url, url ∈ extract_urls E text -> extract_urls E url = [url])
  /\ extract_urls E (join " " (extract_urls E text)) = extract_urls E text.
Proof.
  split.
  - intros url Hin. apply extract_urls_elem in Hin as [Hu Hv].
    unfold extract_urls. rewrite (findall_single _ Hu). cbn [List.filter].
    rewrite Hv. reflexivity.
  - apply extract_urls_of_joined, Forall_forall. intros url Hin.
    eapply extract_urls_elem. exact Hin.
Qed.

Lemma X3_witness :
  extract_urls Fixture.E_model_down "https://a.b/c" = ["https://a.b/c"].
Proof.
  refine (proj1 (X3_extraction_round_trip Fixture.E_model_down
                   "see https://a.b/c and ftp://x") "https://a.b/c" _).
  vm_compute. left.
Defined.

(* ===================================================================== *)
(** * Ingestion: the stored chunks, failures, the cache                   *)
(* ===================================================================== *)

Section IngestionPaths.
Variable E : Env.

(** The [try] body once the page is fetched and long enough. *)
Lemma ingest_try_long_text (url : string) (w : World) (html text : string) :
  requests_get E (fetch_log w) url = Ok html ->
  extract_text_from_html E html = Ok text ->
  50 <= String.length text ->
  ingest_try E url (get_url_hash E url) w =
  match chroma_add_documents E (collection w) (page_docs E url text) with
  | Some e =>
      (Raise e,
       {| _ingested_urls := _ingested_urls w; collection := collection w;
          fetch_log := url :: fetch_log w; llm_log := llm_log w |})
  | None =>
      match chroma_persist E (collection w ++ page_docs E url text) with
      | Some e =>
          (Raise e,
           {| _ingested_urls := _ingested_urls w;
              collection := collection w ++ page_docs E url text;
              fetch_log := url :: fetch_log w; llm_log := llm_log w |})
      | None =>
          (Ok (page_docs E url text),
           ingested url (get_url_hash E url) (page_docs E url text) w)
      end
  end.
Proof.
  intros Hget Htext Hlong.
  unfold ingest_try, http_get, bind at 1. rewrite Hget. cbv beta iota.
  unfold bind at 1, lift. rewrite Htext. cbv beta iota.
  apply Nat.ltb_ge in Hlong. rewrite Hlong. cbv zeta.
  fold (page_docs E url text).
  unfold bind at 1, add_documents. cbn [collection].
  destruct (chroma_add_documents E (collection w) (page_docs E url text)); [reflexivity|].
  unfold bind at 1, persist. cbn [collection].
  destruct (chroma_persist E (collection w ++ page_docs E url text)); reflexivity.
Qed.

Lemma make_docs_lookup (url h : string) (chunks : list string) (i : nat) (chunk : string) :
  chunks !! i = Some chunk ->
  make_docs url h chunks !! i =
  Some {| page_content := chunk;
          metadata := {| md_source := Some url; md_url_hash := Some h;
                         md_chunk_index := Some i;
                         md_total_chunks := Some (length chunks) |} |}.
Proof.
  intros Hi. unfold make_docs. rewrite list_lookup_imap, Hi. reflexivity.
Qed.

Lemma make_docs_sources (url h : string) (chunks : list string) :
  Forall (fun d => md_source (metadata d) = Some url) (make_docs url h chunks).
Proof.
  apply Forall_lookup. intros i d. unfold make_docs. rewrite list_lookup_imap.
  destruct (chunks !! i); [|discriminate]. intros [= <-]. reflexivity.
Qed.

(** A call that raises has run the [try]. *)
Lemma ingest_url_raise_ran (url : string) (force : bool) (w : World) (e : exn) (w' : World) :
  ingest_url E url force w = (Raise e, w') ->
  force = true \/ get_url_hash E url ∉ _ingested_urls w.
Proof.
  intros Hrun.
  destruct (decide (force = true \/ get_url_hash E url ∉ _ingested_urls w)) as [H|H];
    [exact H|].
  assert (Hf : force = false) by (destruct force; tauto).
  assert (Hin : get_url_hash E url ∈ _ingested_urls w).
  { destruct (decide (get_url_hash E url ∈ _ingested_urls w)); tauto. }
  subst force. rewrite ingest_url_skips in Hrun by exact Hin. discriminate.
Qed.

(** After a call that returns, the URL is known. *)
Lemma ingest_url_ok_known (url : string) (force : bool) (w : World)
    (docs : list Document) (w1 : World) :
  ingest_url E url force w = (Ok docs, w1) ->
  get_url_hash E url ∈ _ingested_urls w1.
Proof.
  intros Hrun.
  destruct (decide (force = true \/ get_url_hash E url ∉ _ingested_urls w)) as [H|H].
  - destruct (ingest_url_effects E _ _ _ _ _ H Hrun) as (_ & _ & ->).
    apply elem_of_union_l, elem_of_singleton. reflexivity.
  - assert (Hf : force = false) by (destruct force; tauto).
    assert (Hin : get_url_hash E url ∈ _ingested_urls w).
    { destruct (decide (get_url_hash E url ∈ _ingested_urls w)); tauto. }
    subst force. rewrite ingest_url_skips in Hrun by exact Hin.
    injection Hrun as _ <-. exact Hin.
Qed.

End IngestionPaths.

(** X6. An ingestion that fetches a page with at least 50 characters of
    text, and whose store accepts and persists the batch, returns one
    document per chunk in the order of the chunks; the document at
    position [i] holds the chunk, the URL as source, the hash of the URL,
    [i] as chunk index and the number of chunks; these documents are
    appended to the collection, the hash is recorded and one fetch is
    logged. *)
Theorem X6_ingest_success_stores_indexed_chunks (E : Env) (url : string) (force : bool)
    (w : World) (html text : string) :
  force = true \/ get_url_hash E url ∉ _ingested_urls w ->
  requests_get E (fetch_log w) url = Ok html ->
  extract_text_from_html E html = Ok text ->
  50 <= String.length text ->
  chroma_add_documents E (collection w) (page_docs E url text) = None ->
  chroma_persist E (collection w ++ page_docs E url text) = None ->
  ingest_url E url force w =
    (Ok (page_docs E url text),
     ingested url (get_url_hash E url) (page_docs E url text) w)
  /\ length (page_docs E url text) = length (split_text E 1000 200 separators text)
  /\ (forall i chunk,
        split_text E 1000 200 separators text !! i = Some chunk ->
        page_docs E url text !! i =
        Some {| page_content := chunk;
                metadata := {| md_source := Some url;
                               md_url_hash := Some (get_url_hash E url);
                               md_chunk_index := Some i;
                               md_total_chunks :=
                                 Some (length (split_text E 1000 200 separators text)) |} |}).
Proof.
  intros Hruns Hget Htext Hlong Hadd Hpersist. split; [|split].
  - rewrite (ingest_url_runs _ _ _ _ Hruns). unfold try_except.
    rewrite (ingest_try_long_text E url w html text Hget Htext Hlong), Hadd, Hpersist.
    reflexivity.
  - unfold page_docs, make_docs. apply length_imap.
  - intros i chunk Hi. apply make_docs_lookup. exact Hi.
Qed.

Lemma X6_witness :
  ingest_url Fixture.E_model_down "https://a.example/p" false Fixture.w0 =
  (Ok (page_docs Fixture.E_model_down "https://a.example/p" Fixture.page),
   ingested "https://a.example/p" (get_url_hash Fixture.E_model_down "https://a.example/p")
     (page_docs Fixture.E_model_down "https://a.example/p" Fixture.page) Fixture.w0).
Proof.
  refine (proj1 (X6_ingest_success_stores_indexed_chunks Fixture.E_model_down
                   "https://a.example/p" false Fixture.w0 Fixture.page Fixture.page
                   _ eq_refl eq_refl _ eq_refl eq_refl)).
  - right. cbn. set_solver.
  - vm_compute. lia.
Defined.

(** X7. Whatever goes wrong inside [ingest_url], the caller sees a plain
    [Exception] whose message starts with "Failed to fetch URL: " or with
    "Error processing URL: " followed by the message of the cause; a
    request error of the fetch gives the first; and a call that raises has
    made its fetch. *)
Theorem X7_ingest_failures_are_wrapped (E : Env) (url : string) (force : bool)
    (w : World) (e : exn) (w' : World) :
  ingest_url E url force w = (Raise e, w') ->
  exn_cls e = Exception
  /\ (exists cause, exn_str e = "Failed to fetch URL: " +:+ cause \/
                    exn_str e = "Error processing URL: " +:+ cause)
  /\ fetch_log w' = url :: fetch_log w
  /\ (forall cause,
        requests_get E (fetch_log w) url = Raise cause ->
        is_RequestException cause = true ->
        exn_str e = "Failed to fetch URL: " +:+ exn_str cause).
Proof.
  intros Hrun. pose proof (ingest_url_raise_ran E _ _ _ _ _ Hrun) as Hruns.
  pose proof (ingest_url_effects E _ _ _ _ _ Hruns Hrun) as (Hlog & _ & _).
  rewrite (ingest_url_runs _ _ _ _ Hruns) in Hrun. unfold try_except in Hrun.
  destruct (ingest_try E url (get_url_hash E url) w) as [[docs|e0] w1] eqn:Htry;
    [discriminate|].
  assert (Hshape : forall e1, ingest_except e1 w1 = (Raise e, w') ->
            exn_cls e = Exception /\
            (exists cause, exn_str e = "Failed to fetch URL: " +:+ cause \/
                           exn_str e = "Error processing URL: " +:+ cause) /\
            (is_RequestException e1 = true ->
             exn_str e = "Failed to fetch URL: " +:+ exn_str e1)).
  { intros e1. unfold ingest_except, raise.
    destruct (is_RequestException e1); intros [= <- _]; cbn [exn_cls exn_str];
      (split; [reflexivity|]); (split; [eauto|]); [reflexivity|discriminate]. }
  destruct (Hshape e0 Hrun) as (Hcls & Hmsg & Hfetch).
  split; [exact Hcls|]. split; [exact Hmsg|]. split; [exact Hlog|].
  intros cause Hget Hreq.
  unfold ingest_try, http_get, bind at 1 in Htry. rewrite Hget in Htry.
  injection Htry as <- _. apply Hfetch. exact Hreq.
Qed.

Lemma X7_witness :
  exn_cls (mk_exn Exception "Failed to fetch URL: 503 Server Error") = Exception
  /\ (exists cause,
        exn_str (mk_exn Exception "Failed to fetch URL: 503 Server Error")
          = "Failed to fetch URL: " +:+ cause \/
        exn_str (mk_exn Exception "Failed to fetch URL: 503 Server Error")
          = "Error processing URL: " +:+ cause)
  /\ fetch_log (snd (ingest_url Fixture.E_web_down "http://x.example/1" false Fixture.w0))
     = "http://x.example/1" :: fetch_log Fixture.w0
  /\ (forall cause,
        requests_get Fixture.E_web_down (fetch_log Fixture.w0) "http://x.example/1"
          = Raise cause ->
        is_RequestException cause = true ->
        exn_str (mk_exn Exception "Failed to fetch URL: 503 Server Error")
          = "Failed to fetch URL: " +:+ exn_str cause).
Proof.
  refine (X7_ingest_failures_are_wrapped Fixture.E_web_down "http://x.example/1" false
            Fixture.w0 (mk_exn Exception "Failed to fetch URL: 503 Server Error")
            (snd (ingest_url Fixture.E_web_down "http://x.example/1" false Fixture.w0)) _).
  vm_compute. reflexivity.
Defined.

(** X8. When the store takes the batch but persisting raises, the call
    raises with the chunks left in the collection and the hash not
    recorded; the next call without [force] therefore fetches the page
    again. *)
Theorem X8_persist_failure_leaves_chunks_unmarked (E : Env) (url : string) (force : bool)
    (w : World) (html text : string) (cause : exn) :
  force = true \/ get_url_hash E url ∉ _ingested_urls w ->
  requests_get E (fetch_log w) url = Ok html ->
  extract_text_from_html E html = Ok text ->
  50 <= String.length text ->
  chroma_add_documents E (collection w) (page_docs E url text) = None ->
  chroma_persist E (collection w ++ page_docs E url text) = Some cause ->
  exists e w',
    ingest_url E url force w = (Raise e, w') /\
    collection w' = (collection w ++ page_docs E url text)%list /\
    _ingested_urls w' = _ingested_urls w /\
    (get_url_hash E url ∉ _ingested_urls w ->
     fetch_log (snd (ingest_url E url false w')) = url :: url :: fetch_log w).
Proof.
  intros Hruns Hget Htext Hlong Hadd Hpersist.
  rewrite (ingest_url_runs _ _ _ _ Hruns). unfold try_except.
  rewrite (ingest_try_long_text E url w html text Hget Htext Hlong), Hadd, Hpersist.
  match goal with |- context [ingest_except cause ?w1] =>
    destruct (ingest_except_raises cause w1) as [e He]; rewrite He; exists e, w1 end.
  split; [reflexivity|]. split; [reflexivity|]. split; [reflexivity|].
  intros Hnew.
  match goal with |- fetch_log (snd (ingest_url E url false ?w1)) = _ =>
    destruct (ingest_url E url false w1) as [r w2] eqn:Hagain;
    apply (ingest_url_effects E url false w1 r w2 (or_intror Hnew)) in Hagain end.
  cbn [snd]. destruct Hagain as (-> & _). reflexivity.
Qed.

Lemma X8_witness :
  exists e w',
    ingest_url Fixture.E_persist_fails "https://a.example/p" false Fixture.w0 = (Raise e, w') /\
    collection w' =
      (collection Fixture.w0 ++
       page_docs Fixture.E_persist_fails "https://a.example/p" Fixture.page)%list /\
    _ingested_urls w' = _ingested_urls Fixture.w0 /\
    (get_url_hash Fixture.E_persist_fails "https://a.example/p" ∉ _ingested_urls Fixture.w0 ->
     fetch_log (snd (ingest_url Fixture.E_persist_fails "https://a.example/p" false w')) =
     "https://a.example/p" :: "https://a.example/p" :: fetch_log Fixture.w0).
Proof.
  refine (X8_persist_failure_leaves_chunks_unmarked Fixture.E_persist_fails
            "https://a.example/p" false Fixture.w0 Fixture.page Fixture.page
            (mk_exn (OtherError "AttributeError") "persist")
            _ eq_refl eq_refl _ eq_refl eq_refl).
  - right. cbn. set_solver.
  - vm_compute. lia.
Defined.

(** X9. For a URL whose hash is not in the ingested set, [force] makes
    no difference. [clear_ingestion_cache] empties the set and touches
    nothing else, so after it every URL is ingested like a new one. *)
Theorem X9_clearing_cache_makes_urls_new (E : Env) (url : string) (w : World) :
  (get_url_hash E url ∉ _ingested_urls w ->
   ingest_url E url false w = ingest_url E url true w)
  /\ fst (clear_ingestion_cache w) = Ok tt
  /\ _ingested_urls (snd (clear_ingestion_cache w)) = ∅
  /\ collection (snd (clear_ingestion_cache w)) = collection w
  /\ fetch_log (snd (clear_ingestion_cache w)) = fetch_log w
  /\ llm_log (snd (clear_ingestion_cache w)) = llm_log w
  /\ ingest_url E url false (snd (clear_ingestion_cache w)) =
     ingest_url E url true (snd (clear_ingestion_cache w)).
Proof.
  assert (Hsame : forall w0, get_url_hash E url ∉ _ingested_urls w0 ->
                    ingest_url E url false w0 = ingest_url E url true w0).
  { intros w0 Hnew. rewrite (ingest_url_runs E url false w0 (or_intror Hnew)).
    rewrite (ingest_url_runs E url true w0 (or_introl eq_refl)). reflexivity. }
  split; [apply Hsame|]. repeat (split; [reflexivity|]).
  apply Hsame. cbn. apply not_elem_of_empty.
Qed.

Lemma X9_witness :
  ingest_url Fixture.E_model_down "https://a.example/p" false Fixture.w0 =
  ingest_url Fixture.E_model_down "https://a.example/p" true Fixture.w0.
Proof.
  refine (proj1 (X9_clearing_cache_makes_urls_new Fixture.E_model_down
                   "https://a.example/p" Fixture.w0) _).
  cbn. set_solver.
Defined.

(** X10. A URL written twice in one request is ingested once when its
    first ingestion returns, the second turn being a skip; when the first
    ingestion raises, the second turn fetches the page again. *)
Theorem X10_repeated_url_in_one_request (E : Env) (url : string) (w : World) :
  (forall docs w1,
     ingest_url E url false w = (Ok docs, w1) ->
     get_url_hash E url ∈ _ingested_urls w1 /\
     forall rest, ingest_all E (url :: url :: rest) w = ingest_all E (url :: rest) w)
  /\ (forall e w1,
        ingest_url E url false w = (Raise e, w1) ->
        fetch_log (ingest_all E [url; url] w) = url :: url :: fetch_log w).
Proof.
  split.
  - intros docs w1 Hrun.
    pose proof (ingest_url_ok_known E _ _ _ _ _ Hrun) as Hknown.
    split; [exact Hknown|]. intros rest.
    cbn [ingest_all fold_left]. rewrite Hrun. cbn [snd].
    rewrite (ingest_url_skips E url w1 Hknown). reflexivity.
  - intros e w1 Hrun.
    pose proof (ingest_url_raise_ran E _ _ _ _ _ Hrun) as Hruns.
    destruct Hruns as [Hf|Hnew]; [discriminate|].
    pose proof (ingest_url_effects E _ _ _ _ _ (or_intror Hnew) Hrun) as (Hlog & _ & Hcache).
    cbn [ingest_all fold_left]. rewrite Hrun. cbn [snd].
    destruct (ingest_url E url false w1) as [r w2] eqn:Hagain. cbn [snd].
    rewrite <- Hcache in Hnew.
    apply (ingest_url_effects E _ _ _ _ _ (or_intror Hnew)) in Hagain.
    destruct Hagain as (-> & _). rewrite Hlog. reflexivity.
Qed.

Lemma X10_witness :
  (get_url_hash Fixture.E_model_down "https://a.example/p"
     ∈ _ingested_urls (snd (ingest_url Fixture.E_model_down "https://a.example/p" false
                              Fixture.w0))
   /\ forall rest,
        ingest_all Fixture.E_model_down
          ("https://a.example/p" :: "https://a.example/p" :: rest) Fixture.w0 =
        ingest_all Fixture.E_model_down ("https://a.example/p" :: rest) Fixture.w0)
  /\ fetch_log (ingest_all Fixture.E_web_down ["http://x.example/1"; "http://x.example/1"]
                  Fixture.w0)
     = "http://x.example/1" :: "http://x.example/1" :: fetch_log Fixture.w0.
Proof.
  split.
  - refine (proj1 (X10_repeated_url_in_one_request Fixture.E_model_down
                     "https://a.example/p" Fixture.w0)
              (page_docs Fixture.E_model_down "https://a.example/p" Fixture.page) _ _).
    vm_compute. reflexivity.
  - refine (proj2 (X10_repeated_url_in_one_request Fixture.E_web_down
                     "http://x.example/1" Fixture.w0)
              (mk_exn Exception "Failed to fetch URL: 503 Server Error")
              (snd (ingest_url Fixture.E_web_down "http://x.example/1" false Fixture.w0)) _).
    vm_compute. reflexivity.
Defined.

(* ===================================================================== *)
(** * What a whole run does to the world and to the result                *)
(* ===================================================================== *)

Ltac prompts_ok :=
  repeat (apply Forall_cons_2; [first [left; reflexivity | assumption]|]);
  apply Forall_nil_2.

Section RunEffects.
Variable E : Env.

Lemma ingest_try_world (url h : string) (w : World) r (w' : World) :
  ingest_try E url h w = (r, w') ->
  (exists added, collection w' = (collection w ++ added)%list /\
                 Forall (fun d => md_source (metadata d) = Some url) added).
Proof.
  unfold ingest_try, http_get, add_documents, persist, ingested_add. unfold_m.
  cbv beta iota.
  assert (Hsame : forall w1 : World, collection w1 = collection w ->
            exists added, collection w1 = (collection w ++ added)%list /\
                          Forall (fun d => md_source (metadata d) = Some url) added).
  { intros w1 ->. exists []. rewrite app_nil_r. auto. }
  destruct (requests_get E (fetch_log w) url) as [html|e]; cbv beta iota.
  2: { intros [= _ <-]. apply Hsame. reflexivity. }
  destruct (extract_text_from_html E html) as [text|e]; cbv beta iota.
  2: { intros [= _ <-]. apply Hsame. reflexivity. }
  destruct (String.length text <? 50)%nat; cbv beta iota.
  { intros [= _ <-]. apply Hsame. reflexivity. }
  destruct (chroma_add_documents E _ _) as [e|]; cbv beta iota.
  { intros [= _ <-]. apply Hsame. reflexivity. }
  destruct (chroma_persist E _) as [e|]; cbv beta iota;
    intros [= _ <-]; eexists; (split; [reflexivity|apply make_docs_sources]).
Qed.

(** One ingestion: the set grows at most, documents are only added and
    come from this URL, at most this URL is fetched, the model is not
    asked. *)
Lemma ingest_url_world (url : string) (force : bool) (w : World) r (w' : World) :
  ingest_url E url force w = (r, w') ->
  _ingested_urls w ⊆ _ingested_urls w'
  /\ (_ingested_urls w' = _ingested_urls w \/
      _ingested_urls w' = {[get_url_hash E url]} ∪ _ingested_urls w)
  /\ (exists added, collection w' = (collection w ++ added)%list /\
                    Forall (fun d => md_source (metadata d) = Some url) added)
  /\ (fetch_log w' = fetch_log w \/ fetch_log w' = url :: fetch_log w)
  /\ llm_log w' = llm_log w.
Proof.
  intros Hrun.
  destruct (decide (force = true \/ get_url_hash E url ∉ _ingested_urls w)) as [H|H].
  - pose proof (ingest_url_effects E _ _ _ _ _ H Hrun) as (Hlog & Hllm & Hcache).
    rewrite (ingest_url_runs _ _ _ _ H) in Hrun. unfold try_except in Hrun.
    destruct (ingest_try E url (get_url_hash E url) w) as [[docs|e] w1] eqn:Htry.
    + injection Hrun as <- <-. cbn in Hcache.
      split; [rewrite Hcache; apply union_subseteq_r|]. split; [auto|].
      split; [eapply ingest_try_world; exact Htry|]. auto.
    + destruct (ingest_except_raises e w1) as [e' He]. rewrite He in Hrun.
      injection Hrun as <- <-. cbn in Hcache.
      split; [rewrite Hcache; reflexivity|]. split; [auto|].
      split; [eapply ingest_try_world; exact Htry|]. auto.
  - assert (Hf : force = false) by (destruct force; tauto).
    assert (Hin : get_url_hash E url ∈ _ingested_urls w).
    { destruct (decide (get_url_hash E url ∈ _ingested_urls w)); tauto. }
    subst force. rewrite ingest_url_skips in Hrun by exact Hin.
    injection Hrun as _ <-. split; [reflexivity|]. split; [auto|].
    split; [exists []; rewrite app_nil_r; auto|]. auto.
Qed.

Lemma ingest_all_world (urls : list string) (w : World) :
  _ingested_urls w ⊆ _ingested_urls (ingest_all E urls w)
  /\ (forall h, h ∈ _ingested_urls (ingest_all E urls w) ->
        h ∈ _ingested_urls w \/ exists url, url ∈ urls /\ h = get_url_hash E url)
  /\ (exists added,
        collection (ingest_all E urls w) = (collection w ++ added)%list /\
        Forall (fun d => exists url, url ∈ urls /\ md_source (metadata d) = Some url) added)
  /\ (exists fetched,
        fetch_log (ingest_all E urls w) = (fetched ++ fetch_log w)%list /\
        Forall (fun u => u ∈ urls) fetched)
  /\ llm_log (ingest_all E urls w) = llm_log w.
Proof.
  revert w. induction urls as [|url rest IH]; intros w.
  - cbn [ingest_all fold_left]. split; [reflexivity|]. split; [auto|].
    split; [exists []; rewrite app_nil_r; auto|]. split; [exists []; auto|reflexivity].
  - cbn [ingest_all fold_left].
    destruct (ingest_url E url false w) as [r w1] eqn:Hrun. cbn [snd].
    apply ingest_url_world in Hrun as (Hsub & Hset & (add1 & Hc1 & Hs1) & Hf1 & Hl1).
    destruct (IH w1) as (Hsub2 & Hset2 & (add2 & Hc2 & Hs2) & (f2 & Hf2 & Hu2) & Hl2).
    change (fold_left (fun w0 u => snd (ingest_url E u false w0)) rest w1)
      with (ingest_all E rest w1).
    split; [etransitivity; eassumption|]. split; [|split; [|split]].
    + intros h Hh. destruct (Hset2 h Hh) as [Hh1|(u & Hu & ->)].
      * destruct Hset as [Hset|Hset]; rewrite Hset in Hh1; [auto|].
        apply elem_of_union in Hh1 as [Hh1|Hh1]; [|auto].
        apply elem_of_singleton in Hh1. right. exists url. split; [left|exact Hh1].
      * right. exists u. split; [right; exact Hu|reflexivity].
    + exists (add1 ++ add2)%list. split; [rewrite Hc2, Hc1, app_assoc; reflexivity|].
      apply Forall_app. split.
      * eapply Forall_impl; [exact Hs1|]. intros d Hd. exists url. split; [left|exact Hd].
      * eapply Forall_impl; [exact Hs2|]. intros d (u & Hu & Hd).
        exists u. split; [right; exact Hu|exact Hd].
    + destruct Hf1 as [Hf1|Hf1]; rewrite Hf2, Hf1.
      * exists f2. split; [reflexivity|].
        eapply Forall_impl; [exact Hu2|]. intros u Hu. right. exact Hu.
      * exists (f2 ++ [url])%list. split; [rewrite <- app_assoc; reflexivity|].
        apply Forall_app. split.
        -- eapply Forall_impl; [exact Hu2|]. intros u Hu. right. exact Hu.
        -- repeat constructor.
    + rewrite Hl2, Hl1. reflexivity.
Qed.

(** The fallback inside the [try] with its handler: one or two calls of
    the general model. *)
Lemma fallback_twice_outcome (st : ChatState) (w : World) r (w' : World) :
  try_except (general_llm E st) (fun _ => general_llm E st) w = (r, w') ->
  (w' = asked (general_prompt (query st)) w \/
   w' = asked (general_prompt (query st)) (asked (general_prompt (query st)) w))
  /\ match r with
     | Ok st' =>
         exists a log, st' = fallback_state (query st) (urls st) a /\
                       llm_complete E log (general_prompt (query st)) = Ok a
     | Raise e => exists log, llm_complete E log (general_prompt (query st)) = Raise e
     end.
Proof.
  unfold try_except. rewrite general_llm_run.
  destruct (llm_complete E (llm_log w) (general_prompt (query st))) as [a|e] eqn:H1.
  - intros [= <- <-]. eauto 6.
  - rewrite general_llm_run.
    destruct (llm_complete E (llm_log (asked (general_prompt (query st)) w))
                (general_prompt (query st))) as [a|e'] eqn:H2;
      intros [= <- <-]; eauto 6.
Qed.

Lemma general_llm_outcome (st : ChatState) (w : World) r (w' : World) :
  general_llm E st w = (r, w') ->
  w' = asked (general_prompt (query st)) w
  /\ match r with
     | Ok st' =>
         exists a log, st' = fallback_state (query st) (urls st) a /\
                       llm_complete E log (general_prompt (query st)) = Ok a
     | Raise e => exists log, llm_complete E log (general_prompt (query st)) = Raise e
     end.
Proof.
  rewrite general_llm_run.
  destruct (llm_complete E (llm_log w) (general_prompt (query st))) as [a|e] eqn:H1;
    intros [= <- <-]; eauto 6.
Qed.

Lemma remove_dups_nonempty (l : list string) : l <> [] -> remove_dups l <> [].
Proof.
  destruct l as [|x l]; [congruence|]. intros _ Hnil.
  assert (Hx : x ∈ remove_dups (x :: l)) by (apply elem_of_remove_dups; left).
  rewrite Hnil in Hx. apply not_elem_of_nil in Hx. exact Hx.
Qed.

Lemma relevance_gate_nonempty (retrieved : list (Document * Q)) :
  relevance_gate E retrieved <> [] -> retrieved <> [].
Proof. intros H ->. apply H. reflexivity. Qed.

(** Every way the [try] statement of the answer step can end. *)
Lemma rag_query_outcome (st : ChatState) (w : World) r (w' : World) :
  rag_query_try_except E st w = (r, w') ->
  exists prompts,
    w' = {| _ingested_urls := _ingested_urls w; collection := collection w;
            fetch_log := fetch_log w; llm_log := (prompts ++ llm_log w)%list |}
    /\ 1 <= length prompts <= 3
    /\ Forall (fun p => p = general_prompt (query st) \/
                        exists retrieved, p = grounded_prompt (query st) retrieved) prompts
    /\ match r with
       | Ok st' =>
           query st' = query st /\ urls st' = urls st /\ NoDup (sources st') /\
           ((used_rag st' = false /\ sources st' = [] /\
             exists log, llm_complete E log (general_prompt (query st)) = Ok (answer st'))
            \/ (used_rag st' = true /\ sources st' <> [] /\ length prompts = 1))
       | Raise e => exists log, llm_complete E log (general_prompt (query st)) = Raise e
       end.
Proof.
  assert (Hfb : forall r0 : result ChatState,
            match r0 with
            | Ok st' =>
                exists a log, st' = fallback_state (query st) (urls st) a /\
                              llm_complete E log (general_prompt (query st)) = Ok a
            | Raise e => exists log, llm_complete E log (general_prompt (query st)) = Raise e
            end ->
            forall n : nat,
            match r0 with
            | Ok st' =>
                query st' = query st /\ urls st' = urls st /\ NoDup (sources st') /\
                ((used_rag st' = false /\ sources st' = [] /\
                  exists log, llm_complete E log (general_prompt (query st)) = Ok (answer st'))
                 \/ (used_rag st' = true /\ sources st' <> [] /\ n = 1))
            | Raise e => exists log, llm_complete E log (general_prompt (query st)) = Raise e
            end).
  { intros [st'|e] H n; [|exact H]. destruct H as (a & log & -> & Ha).
    cbn. split; [reflexivity|]. split; [reflexivity|]. split; [constructor|].
    left. eauto. }
  set (gp := general_prompt (query st)) in *.
  destruct (chroma_search E (collection w) (query st) 5) as [retrieved|e0] eqn:Hsearch.
  2: { rewrite rag_query_search_fails by (rewrite Hsearch; exact I).
       intros Hrun. apply general_llm_outcome in Hrun as [-> Hr].
       exists [gp]. split; [reflexivity|]. split; [cbn; lia|].
       split; [prompts_ok|]. apply Hfb. exact Hr. }
  destruct (relevance_gate E retrieved) as [|ds rest] eqn:Hgate.
  { rewrite (rag_query_nothing_relevant E _ _ _ Hsearch Hgate).
    intros Hrun. apply fallback_twice_outcome in Hrun as [[-> | ->] Hr].
    - exists [gp]. split; [reflexivity|]. split; [cbn; lia|].
      split; [prompts_ok|]. apply Hfb. exact Hr.
    - exists [gp; gp]. split; [reflexivity|]. split; [cbn; lia|].
      split; [prompts_ok|]. apply Hfb. exact Hr. }
  assert (Hne : relevance_gate E retrieved <> []) by (rewrite Hgate; discriminate).
  rewrite (rag_query_relevant E _ _ _ Hsearch Hne). cbv zeta.
  set (p := grounded_prompt (query st) retrieved).
  assert (Hp : p = gp \/ exists retrieved0, p = grounded_prompt (query st) retrieved0)
    by (right; exists retrieved; reflexivity).
  destruct (llm_complete E (llm_log w) p) as [ans|e1].
  2: { intros Hrun. apply general_llm_outcome in Hrun as [-> Hr].
       exists [gp; p]. split; [reflexivity|]. split; [cbn; lia|].
       split; [prompts_ok|]. apply Hfb. exact Hr. }
  destruct (says_no_info ans).
  - intros Hrun. apply fallback_twice_outcome in Hrun as [[-> | ->] Hr].
    + exists [gp; p]. split; [reflexivity|]. split; [cbn; lia|].
      split; [prompts_ok|]. apply Hfb. exact Hr.
    + exists [gp; gp; p]. split; [reflexivity|]. split; [cbn; lia|].
      split; [prompts_ok|]. apply Hfb. exact Hr.
  - intros [= <- <-]. exists [p]. split; [reflexivity|]. split; [cbn; lia|].
    split; [prompts_ok|]. cbn.
    split; [reflexivity|]. split; [reflexivity|]. split; [apply NoDup_remove_dups|].
    right. split; [reflexivity|]. split; [|reflexivity].
    apply remove_dups_nonempty. apply relevance_gate_nonempty in Hne.
    destruct retrieved; [congruence|discriminate].
Qed.

(** Every way the answer step can end: before the [try], or as the
    [try] statement ends. *)
Lemma rag_query_node_outcome (st : ChatState) (w : World) r (w' : World) :
  rag_query_node E st w = (r, w') ->
  exists prompts,
    w' = {| _ingested_urls := _ingested_urls w; collection := collection w;
            fetch_log := fetch_log w; llm_log := (prompts ++ llm_log w)%list |}
    /\ length prompts <= 3
    /\ (handles_built E -> 1 <= length prompts)
    /\ (~ handles_built E -> prompts = [] /\ is_Raise r)
    /\ Forall (fun p => p = general_prompt (query st) \/
                        exists retrieved, p = grounded_prompt (query st) retrieved) prompts
    /\ match r with
       | Ok st' =>
           query st' = query st /\ urls st' = urls st /\ NoDup (sources st') /\
           ((used_rag st' = false /\ sources st' = [] /\
             exists log, llm_complete E log (general_prompt (query st)) = Ok (answer st'))
            \/ (used_rag st' = true /\ sources st' <> [] /\ length prompts = 1))
       | Raise e =>
           the_llm E = Raise e
           \/ ((exists llm, the_llm E = Ok llm) /\ the_vectorstore E = Raise e)
           \/ (handles_built E /\
               exists log, llm_complete E log (general_prompt (query st)) = Raise e)
       end.
Proof.
  intros Hrun. apply rag_query_node_cases in Hrun as [[Hb Hrun]|(-> & e & -> & Hcause)].
  - apply rag_query_outcome in Hrun as (prompts & Hw & Hlen & Hkind & Hr).
    exists prompts. split; [exact Hw|]. split; [lia|]. split; [intros _; lia|].
    split; [intros Hn; contradiction|]. split; [exact Hkind|].
    destruct r; [exact Hr|]. right. right. split; [exact Hb|exact Hr].
  - exists []. split; [destruct w; reflexivity|]. split; [cbn; lia|]. split.
    { intros [[llm Hl] [vs Hv]]. destruct Hcause as [H|[_ H]]; congruence. }
    split; [intros _; split; [reflexivity|exact I]|]. split; [apply Forall_nil_2|].
    destruct Hcause as [H|H]; auto.
Qed.

End RunEffects.

(** X11. A run never removes a hash from the ingested set nor a
    document from the collection: hashes that are new after the run are
    hashes of URLs extracted from the query, documents that are new carry
    such a URL as their source, and only such URLs are fetched. *)
Theorem X11_run_touches_only_query_urls (E : Env) (q : string) (w : World)
    (r : result ChatState) (w' : World) :
  run_chat E q w = (r, w') ->
  _ingested_urls w ⊆ _ingested_urls w'
  /\ (forall h, h ∈ _ingested_urls w' ->
        h ∈ _ingested_urls w \/
        exists url, url ∈ extract_urls E q /\ h = get_url_hash E url)
  /\ (exists added,
        collection w' = (collection w ++ added)%list /\
        Forall (fun d => exists url, url ∈ extract_urls E q /\
                                     md_source (metadata d) = Some url) added)
  /\ (exists fetched,
        fetch_log w' = (fetched ++ fetch_log w)%list /\
        Forall (fun u => u ∈ extract_urls E q) fetched).
Proof.
  rewrite run_chat_entry. intros Hrun.
  apply rag_query_node_outcome in Hrun as (prompts & -> & _).
  cbn [_ingested_urls collection fetch_log]. unfold entry_world.
  destruct (ingest_all_world E (extract_urls E q) w) as (H1 & H2 & H3 & H4 & _). auto.
Qed.

Lemma X11_witness :
  _ingested_urls Fixture.w0 ⊆
  _ingested_urls (snd (run_chat Fixture.E_grounded "read https://a.example/p" Fixture.w0)).
Proof.
  refine (proj1 (X11_run_touches_only_query_urls Fixture.E_grounded
                   "read https://a.example/p" Fixture.w0
                   (fst (run_chat Fixture.E_grounded "read https://a.example/p" Fixture.w0))
                   (snd (run_chat Fixture.E_grounded "read https://a.example/p" Fixture.w0))
                   _)).
  apply surjective_pairing.
Defined.

(** X19. A query that holds neither [http://] nor [https://] is routed
    past ingestion: the run fetches nothing and leaves the ingested set
    and the collection exactly as they were. *)
Theorem X19_query_without_url_leaves_store_alone (E : Env) (q : string) (w : World)
    (r : result ChatState) (w' : World) :
  contains "http://" q = false ->
  contains "https://" q = false ->
  run_chat E q w = (r, w') ->
  _ingested_urls w' = _ingested_urls w /\
  collection w' = collection w /\
  fetch_log w' = fetch_log w.
Proof.
  intros Hhttp Hhttps. rewrite run_chat_entry. unfold entry_world, extract_urls.
  rewrite (findall_without_scheme _ Hhttp Hhttps). cbn [List.filter ingest_all fold_left].
  intros Hrun. apply rag_query_node_outcome in Hrun as (prompts & -> & _). auto.
Qed.

Lemma X19_witness :
  _ingested_urls (snd (run_chat Fixture.E_grounded "capital of France?" Fixture.w_known))
    = _ingested_urls Fixture.w_known /\
  collection (snd (run_chat Fixture.E_grounded "capital of France?" Fixture.w_known))
    = collection Fixture.w_known /\
  fetch_log (snd (run_chat Fixture.E_grounded "capital of France?" Fixture.w_known))
    = fetch_log Fixture.w_known.
Proof.
  refine (X19_query_without_url_leaves_store_alone Fixture.E_grounded
            "capital of France?" Fixture.w_known
            (fst (run_chat Fixture.E_grounded "capital of France?" Fixture.w_known))
            (snd (run_chat Fixture.E_grounded "capital of France?" Fixture.w_known))
            _ _ _).
  - vm_compute. reflexivity.
  - vm_compute. reflexivity.
  - apply surjective_pairing.
Defined.

(** X13. Every result [run_chat] returns carries the query as it was
    given and the URLs extracted from it, lists each source once, and has
    [used_rag=true] exactly when its sources are not empty. *)
Theorem X13_result_invariants (E : Env) (q : string) (w : World)
    (st : ChatState) (w' : World) :
  run_chat E q w = (Ok st, w') ->
  query st = q /\
  urls st = extract_urls E q /\
  NoDup (sources st) /\
  (used_rag st = true <-> sources st <> []).
Proof.
  rewrite run_chat_entry. intros Hrun.
  apply rag_query_node_outcome in Hrun
    as (prompts & _ & _ & _ & _ & _ & Hq & Hu & Hnd & Hcase).
  cbn [entry_state query urls] in Hq, Hu.
  split; [exact Hq|]. split; [exact Hu|]. split; [exact Hnd|].
  destruct Hcase as [(Hr & Hs & _)|(Hr & Hs & _)]; rewrite Hr.
  - rewrite Hs. split; [discriminate|congruence].
  - split; [intros _; exact Hs|reflexivity].
Qed.

Lemma X13_witness :
  query (fallback_state "how is bread made?" [] "Flour, water and salt.") = "how is bread made?"
  /\ urls (fallback_state "how is bread made?" [] "Flour, water and salt.")
     = extract_urls Fixture.E_far "how is bread made?"
  /\ NoDup (sources (fallback_state "how is bread made?" [] "Flour, water and salt."))
  /\ (used_rag (fallback_state "how is bread made?" [] "Flour, water and salt.") = true <->
      sources (fallback_state "how is bread made?" [] "Flour, water and salt.") <> []).
Proof.
  refine (X13_result_invariants Fixture.E_far "how is bread made?" Fixture.w0
            (fallback_state "how is bread made?" [] "Flour, water and salt.")
            (snd (run_chat Fixture.E_far "how is bread made?" Fixture.w0)) _).
  vm_compute. reflexivity.
Defined.

(** X14. When a chunk passes the gate and the grounded answer holds no
    refusal phrase, the run returns that answer word for word after a
    single model call, marked [used_rag=true]; its sources are, each
    once, the [source] entries of the documents the QA chain returned,
    which are all retrieved documents, and a document without a [source]
    entry contributes "unknown". *)
Theorem X14_accepted_grounded_answer (E : Env) (q : string) (w : World)
    (retrieved : list (Document * Q)) (candidate : string) :
  chroma_search E (collection (entry_world E q w)) q 5 = Ok retrieved ->
  (exists doc score, (doc, score) ∈ retrieved /\ (score < RELEVANCE_THRESHOLD E)%Q) ->
  llm_complete E (llm_log (entry_world E q w)) (grounded_prompt q retrieved) = Ok candidate ->
  ~ mentions_refusal candidate ->
  exists st,
    run_chat E q w = (Ok st, asked (grounded_prompt q retrieved) (entry_world E q w)) /\
    answer st = candidate /\
    used_rag st = true /\
    NoDup (sources st) /\
    (forall s, s ∈ sources st <->
               exists doc score, (doc, score) ∈ retrieved /\ doc_source doc = s) /\
    (forall doc score, (doc, score) ∈ retrieved ->
                       md_source (metadata doc) = None -> "unknown" ∈ sources st).
Proof.
  intros Hsearch Hgate Hcand Hrefusal.
  apply relevance_gate_some in Hgate.
  assert (Hno : says_no_info candidate = false).
  { destruct (says_no_info candidate) eqn:Hs; [|reflexivity].
    apply says_no_info_iff in Hs. contradiction. }
  assert (Hbuilt : handles_built E).
  { split; [eapply llm_complete_built; exact Hcand|eapply chroma_search_built; exact Hsearch]. }
  rewrite run_chat_entry, (rag_query_node_built E _ _ Hbuilt).
  rewrite (rag_query_relevant E (entry_state E q) _ _ Hsearch Hgate).
  cbv zeta. cbn [entry_state query urls]. rewrite Hcand, Hno.
  eexists. split; [reflexivity|]. cbn [answer used_rag sources].
  split; [reflexivity|]. split; [reflexivity|]. split; [apply NoDup_remove_dups|].
  assert (Hmem : forall s, s ∈ remove_dups (map doc_source (map fst retrieved)) <->
                           exists doc score, (doc, score) ∈ retrieved /\ doc_source doc = s).
  { intros s. rewrite elem_of_remove_dups, list_elem_of_In, in_map_iff. split.
    - intros (doc & <- & Hin). apply in_map_iff in Hin as ([d score] & <- & Hin).
      exists d, score. split; [apply list_elem_of_In; exact Hin|reflexivity].
    - intros (doc & score & Hin & <-). exists doc. split; [reflexivity|].
      apply in_map_iff. exists (doc, score). split; [reflexivity|].
      apply list_elem_of_In. exact Hin. }
  split; [exact Hmem|].
  intros doc score Hin Hnone. apply Hmem. exists doc, score.
  split; [exact Hin|]. unfold doc_source. rewrite Hnone. reflexivity.
Qed.

Lemma X14_witness :
  exists st,
    run_chat Fixture.E_grounded "capital of France?" Fixture.w0 =
      (Ok st, asked (grounded_prompt "capital of France?" [Fixture.near; Fixture.far])
                (entry_world Fixture.E_grounded "capital of France?" Fixture.w0)) /\
    answer st = "Paris." /\
    used_rag st = true /\
    NoDup (sources st) /\
    (forall s, s ∈ sources st <->
               exists doc score, (doc, score) ∈ [Fixture.near; Fixture.far] /\
                                 doc_source doc = s) /\
    (forall doc score, (doc, score) ∈ [Fixture.near; Fixture.far] ->
                       md_source (metadata doc) = None -> "unknown" ∈ sources st).
Proof.
  refine (X14_accepted_grounded_answer Fixture.E_grounded "capital of France?" Fixture.w0
            [Fixture.near; Fixture.far] "Paris." eq_refl _ eq_refl _).
  - exists (fst Fixture.near), (snd Fixture.near). split; [left|reflexivity].
  - intros Hm. apply says_no_info_iff in Hm. vm_compute in Hm. discriminate.
Defined.

(** X15. A run asks the model at most three times: not at all when the
    model or the store cannot be obtained at the start of the answer step,
    and the run then raises; at least once otherwise. Every prompt is the
    conversational prompt for the raw query or a grounded prompt for it;
    a result with [used_rag=true] took exactly one call. *)
Theorem X15_model_calls_per_run (E : Env) (q : string) (w : World)
    (r : result ChatState) (w' : World) :
  run_chat E q w = (r, w') ->
  exists prompts,
    llm_log w' = (prompts ++ llm_log w)%list /\
    length prompts <= 3 /\
    (handles_built E -> 1 <= length prompts) /\
    (~ handles_built E -> prompts = [] /\ is_Raise r) /\
    Forall (fun p => p = general_prompt q \/
                     exists retrieved, p = grounded_prompt q retrieved) prompts /\
    (forall st, r = Ok st -> used_rag st = true -> length prompts = 1).
Proof.
  rewrite run_chat_entry. intros Hrun.
  apply rag_query_node_outcome in Hrun as (prompts & -> & Hlen & Hsome & Hnone & Hkind & Hr).
  exists prompts. cbn [llm_log entry_state query] in *.
  split.
  { unfold entry_world.
    destruct (ingest_all_world E (extract_urls E q) w) as (_ & _ & _ & _ & ->).
    reflexivity. }
  split; [exact Hlen|]. split; [exact Hsome|]. split; [exact Hnone|].
  split; [exact Hkind|].
  intros st -> Hrag. destruct Hr as (_ & _ & _ & [(Hf & _)|(_ & _ & H1)]);
    [congruence|exact H1].
Qed.

Lemma X15_witness :
  exists prompts,
    llm_log (snd (run_chat Fixture.E_no_store "capital of France?" Fixture.w0)) =
      (prompts ++ llm_log Fixture.w0)%list /\
    length prompts <= 3 /\
    (handles_built Fixture.E_no_store -> 1 <= length prompts) /\
    (~ handles_built Fixture.E_no_store ->
     prompts = [] /\
     is_Raise (fst (run_chat Fixture.E_no_store "capital of France?" Fixture.w0))) /\
    Forall (fun p => p = general_prompt "capital of France?" \/
                     exists retrieved, p = grounded_prompt "capital of France?" retrieved)
           prompts /\
    (forall st,
       fst (run_chat Fixture.E_no_store "capital of France?" Fixture.w0) = Ok st ->
       used_rag st = true -> length prompts = 1).
Proof.
  refine (X15_model_calls_per_run Fixture.E_no_store "capital of France?" Fixture.w0
            (fst (run_chat Fixture.E_no_store "capital of France?" Fixture.w0))
            (snd (run_chat Fixture.E_no_store "capital of France?" Fixture.w0)) _).
  apply surjective_pairing.
Defined.

(** X16. An HTTP error of the /chat handler has one of three causes:
    the model could not be obtained, the store could not be obtained, or
    a conversational completion of the model failed. Failures of
    ingestion, of the similarity search itself and of the grounded call
    never produce one. The status is 400 with the message of the error
    when the cause is a [ValueError], and 500 with "Failed to process
    query: " before the message otherwise. *)
Theorem X16_chat_errors_and_their_causes (E : Env) (req : Main.ChatRequest) (w : World)
    (status_code : nat) (detail : string) (w' : World) :
  Main.chat E req w = (Main.HTTPException status_code detail, w') ->
  exists e,
    (the_llm E = Raise e
     \/ ((exists llm, the_llm E = Ok llm) /\ the_vectorstore E = Raise e)
     \/ (handles_built E /\
         exists log, llm_complete E log (general_prompt (Main.query req)) = Raise e)) /\
    ((is_ValueError e = true /\ status_code = 400 /\ detail = exn_str e) \/
     (is_ValueError e = false /\ status_code = 500 /\
      detail = "Failed to process query: " +:+ exn_str e)).
Proof.
  unfold Main.chat.
  destruct (run_chat E (Main.query req) w) as [[result|e] w1] eqn:Hrun; [discriminate|].
  rewrite run_chat_entry in Hrun.
  apply rag_query_node_outcome in Hrun as (prompts & _ & _ & _ & _ & _ & Hcause).
  cbn [entry_state query] in Hcause. intros Hchat. exists e. split; [exact Hcause|].
  destruct (is_ValueError e); injection Hchat as <- <- _; auto.
Qed.

Lemma X16_witness :
  exists e,
    (the_llm Fixture.E_no_store = Raise e
     \/ ((exists llm, the_llm Fixture.E_no_store = Ok llm) /\
         the_vectorstore Fixture.E_no_store = Raise e)
     \/ (handles_built Fixture.E_no_store /\
         exists log, llm_complete Fixture.E_no_store log (general_prompt "hello") = Raise e)) /\
    ((is_ValueError e = true /\ 500 = 400 /\
      "Failed to process query: data/chroma_db" = exn_str e) \/
     (is_ValueError e = false /\ 500 = 500 /\
      "Failed to process query: data/chroma_db" = "Failed to process query: " +:+ exn_str e)).
Proof.
  refine (X16_chat_errors_and_their_causes Fixture.E_no_store
            {| Main.query := "hello" |} Fixture.w0 500 "Failed to process query: data/chroma_db"
            (snd (Main.chat Fixture.E_no_store {| Main.query := "hello" |} Fixture.w0)) _).
  vm_compute. reflexivity.
Defined.

(* ===================================================================== *)
(** * The vector-store singleton                                          *)
(* ===================================================================== *)

Lemma get_vectorstore_cached (new_chroma : nat -> option exn) (g : VectorStore.Globals)
    (h : nat) (g1 : VectorStore.Globals) :
  VectorStore.get_vectorstore new_chroma g = (Ok h, g1) ->
  VectorStore._vectorstore_instance g1 = Some h.
Proof.
  unfold VectorStore.get_vectorstore.
  destruct (VectorStore._vectorstore_instance g) as [i|] eqn:Hi.
  - intros [= <- <-]. exact Hi.
  - destruct (new_chroma (VectorStore.constructions g)); [discriminate|].
    intros [= <- <-]. reflexivity.
Qed.

Lemma get_vectorstore_hit (new_chroma : nat -> option exn) (g : VectorStore.Globals) (h : nat) :
  VectorStore._vectorstore_instance g = Some h ->
  VectorStore.get_vectorstore new_chroma g = (Ok h, g).
Proof. intros Hi. unfold VectorStore.get_vectorstore. rewrite Hi. reflexivity. Qed.

(** X18. Once [get_vectorstore] has returned a store, every later call,
    however many, returns that same store and constructs nothing, whatever
    the constructor would do now; after [reset_vectorstore] the next call
    runs the constructor again. *)
Theorem X18_vectorstore_is_built_once (new_chroma : nat -> option exn)
    (g : VectorStore.Globals) (h : nat) (g1 : VectorStore.Globals) :
  VectorStore.get_vectorstore new_chroma g = (Ok h, g1) ->
  (forall later_chroma n,
     VectorStore.get_many later_chroma n g1 = (replicate n (Ok h), g1))
  /\ VectorStore._vectorstore_instance (VectorStore.reset_vectorstore g1) = None
  /\ (exists r g2,
        VectorStore.get_vectorstore new_chroma (VectorStore.reset_vectorstore g1) = (r, g2) /\
        VectorStore.constructions g2 = S (VectorStore.constructions g1)).
Proof.
  intros Hget. apply get_vectorstore_cached in Hget. split; [|split; [reflexivity|]].
  - intros later_chroma n. induction n as [|n IH]; [reflexivity|].
    cbn [VectorStore.get_many replicate].
    rewrite (get_vectorstore_hit later_chroma g1 h Hget), IH. reflexivity.
  - unfold VectorStore.get_vectorstore, VectorStore.reset_vectorstore.
    cbn [VectorStore._vectorstore_instance VectorStore.constructions].
    destruct (new_chroma (VectorStore.constructions g1)); eauto.
Qed.

Lemma X18_witness :
  VectorStore.get_many (fun _ => Some (mk_exn Exception "gone")) 3
    (snd (VectorStore.get_vectorstore (fun _ => None) Fixture.g0))
  = (replicate 3 (Ok 0), snd (VectorStore.get_vectorstore (fun _ => None) Fixture.g0)).
Proof.
  refine (proj1 (X18_vectorstore_is_built_once (fun _ => None) Fixture.g0 0
                   (snd (VectorStore.get_vectorstore (fun _ => None) Fixture.g0)) _)
            (fun _ => Some (mk_exn Exception "gone")) 3).
  reflexivity.
Defined.

(** X20. The /health handler answers 503 with the message of the error
    when the store has to be constructed and the constructor raises, and
    that failure is not cached: the next check constructs again. Once a
    store exists, the handler answers healthy without looking at the
    backend at all. *)
Theorem X20_health_follows_the_singleton (new_chroma : nat -> option exn)
    (g : VectorStore.Globals) :
  (forall e,
     VectorStore._vectorstore_instance g = None ->
     new_chroma (VectorStore.constructions g) = Some e ->
     VectorStore.health new_chroma g =
       (VectorStore.Unhealthy (exn_str e),
        {| VectorStore._vectorstore_instance := None;
           VectorStore.constructions := S (VectorStore.constructions g) |}) /\
     (new_chroma (S (VectorStore.constructions g)) = None ->
      fst (VectorStore.health new_chroma (snd (VectorStore.health new_chroma g)))
      = VectorStore.Healthy))
  /\ (forall h later_chroma,
        VectorStore._vectorstore_instance g = Some h ->
        VectorStore.health later_chroma g = (VectorStore.Healthy, g)).
Proof.
  split.
  - intros e Hnone Hfail.
    assert (Hh : VectorStore.health new_chroma g =
                 (VectorStore.Unhealthy (exn_str e),
                  {| VectorStore._vectorstore_instance := None;
                     VectorStore.constructions := S (VectorStore.constructions g) |})).
    { unfold VectorStore.health, VectorStore.get_vectorstore.
      rewrite Hnone, Hfail. reflexivity. }
    split; [exact Hh|].
    intros Hnext. rewrite Hh. cbn [snd].
    unfold VectorStore.health, VectorStore.get_vectorstore.
    cbn [VectorStore._vectorstore_instance VectorStore.constructions].
    rewrite Hnext. reflexivity.
  - intros h later_chroma Hsome. unfold VectorStore.health.
    rewrite (get_vectorstore_hit later_chroma g h Hsome). reflexivity.
Qed.

Lemma X20_witness :
  (VectorStore.health Fixture.chroma_second_try Fixture.g0 =
     (VectorStore.Unhealthy "data/chroma_db",
      {| VectorStore._vectorstore_instance := None; VectorStore.constructions := 1 |}) /\
   (Fixture.chroma_second_try 1 = None ->
    fst (VectorStore.health Fixture.chroma_second_try
           (snd (VectorStore.health Fixture.chroma_second_try Fixture.g0)))
    = VectorStore.Healthy))
  /\ VectorStore.health (fun _ => Some (mk_exn Exception "gone"))
       {| VectorStore._vectorstore_instance := Some 0; VectorStore.constructions := 1 |}
     = (VectorStore.Healthy,
        {| VectorStore._vectorstore_instance := Some 0; VectorStore.constructions := 1 |}).
Proof.
  split.
  - exact (proj1 (X20_health_follows_the_singleton Fixture.chroma_second_try Fixture.g0)
             (mk_exn (OtherError "PermissionError") "data/chroma_db") eq_refl eq_refl).
  - exact (proj2 (X20_health_follows_the_singleton (fun _ => Some (mk_exn Exception "gone"))
                    {| VectorStore._vectorstore_instance := Some 0;
                       VectorStore.constructions := 1 |})
             0 (fun _ => Some (mk_exn Exception "gone")) eq_refl).
Defined.

(* ===================================================================== *)
(** * Retries, the instructed refusal, ingestion before retrieval         *)
(* ===================================================================== *)

(** X12. With the model and the store obtained, when the first
    conversational completion fails: after a failed search the error
    leaves the run at once, after one model call; when
    the search worked and no chunk passed the gate, the completion is
    asked a second time and the run ends as that second call ends. *)
Theorem X12_failed_fallback_is_retried_after_empty_gate (E : Env) (q : string) (w : World)
    (e : exn) :
  handles_built E ->
  llm_complete E (llm_log (entry_world E q w)) (general_prompt q) = Raise e ->
  (is_Raise (chroma_search E (collection (entry_world E q w)) q 5) ->
   run_chat E q w = (Raise e, asked (general_prompt q) (entry_world E q w)))
  /\ (forall retrieved,
        chroma_search E (collection (entry_world E q w)) q 5 = Ok retrieved ->
        (forall doc score,
           (doc, score) ∈ retrieved -> ~ (score < RELEVANCE_THRESHOLD E)%Q) ->
        run_chat E q w =
        match llm_complete E (general_prompt q :: llm_log (entry_world E q w))
                (general_prompt q) with
        | Ok a =>
            (Ok (fallback_state q (extract_urls E q) a),
             asked (general_prompt q) (asked (general_prompt q) (entry_world E q w)))
        | Raise e' =>
            (Raise e',
             asked (general_prompt q) (asked (general_prompt q) (entry_world E q w)))
        end).
Proof.
  intros Hbuilt Hfirst. rewrite run_chat_entry, (rag_query_node_built E _ _ Hbuilt). split.
  - intros Hdown. rewrite rag_query_search_fails by exact Hdown.
    rewrite general_llm_run. cbn [entry_state query]. rewrite Hfirst. reflexivity.
  - intros retrieved Hsearch Hfar. apply relevance_gate_none in Hfar.
    rewrite (rag_query_nothing_relevant E (entry_state E q) _ _ Hsearch Hfar).
    unfold try_except. rewrite (general_llm_run E (entry_state E q)).
    cbn [entry_state query urls]. rewrite Hfirst.
    rewrite (general_llm_run E (entry_state E q)). reflexivity.
Qed.

Lemma X12_witness :
  run_chat Fixture.E_model_down "capital of France?" Fixture.w0 =
  match llm_complete Fixture.E_model_down
          (general_prompt "capital of France?"
           :: llm_log (entry_world Fixture.E_model_down "capital of France?" Fixture.w0))
          (general_prompt "capital of France?") with
  | Ok a =>
      (Ok (fallback_state "capital of France?"
             (extract_urls Fixture.E_model_down "capital of France?") a),
       asked (general_prompt "capital of France?")
         (asked (general_prompt "capital of France?")
            (entry_world Fixture.E_model_down "capital of France?" Fixture.w0)))
  | Raise e' =>
      (Raise e',
       asked (general_prompt "capital of France?")
         (asked (general_prompt "capital of France?")
            (entry_world Fixture.E_model_down "capital of France?" Fixture.w0)))
  end.
Proof.
  refine (proj2 (X12_failed_fallback_is_retried_after_empty_gate Fixture.E_model_down
                   "capital of France?" Fixture.w0
                   (mk_exn (OtherError "ConnectionError") "model unavailable")
                   (conj (ex_intro _ _ eq_refl) (ex_intro _ _ eq_refl)) eq_refl)
            [] eq_refl _).
  intros doc score Hin. apply not_elem_of_nil in Hin. destruct Hin.
Defined.

(** X21. The grounded prompt quotes one refusal sentence for the model
    to use, and the refusal test recognises that sentence in any case of
    letters and inside any surrounding text: a model that follows the
    instruction always sets off the fallback. *)
Theorem X21_instructed_refusal_is_recognised :
  (forall context question,
     exists pre post,
       qa_prompt context question =
       pre +:+ dquote +:+ instructed_refusal +:+ dquote +:+ post)
  /\ (forall pre said post,
        lower said = lower instructed_refusal ->
        says_no_info (pre +:+ said +:+ post) = true).
Proof.
  split.
  - intros context question. unfold qa_prompt, instructed_refusal.
    eexists
      ("Use the following pieces of context to answer the question. " +:+ nl +:+
       "If the context doesn't contain relevant information to answer the question, say "),
      _.
    rewrite !string_app_assoc. reflexivity.
  - intros pre said post Hsaid. apply says_no_info_iff.
    change (lower instructed_refusal)
      with ("i " +:+ "don't have enough information" +:+
            " in the provided context to answer that question.") in Hsaid.
    apply lower_split in Hsaid as (a & rest & -> & _ & Hrest).
    apply lower_split in Hrest as (mid & b & -> & Hmid & _).
    exists "don't have enough information", (pre +:+ a), mid, (b +:+ post).
    split; [left; reflexivity|]. split; [|exact Hmid].
    rewrite !string_app_assoc. reflexivity.
Qed.

Lemma X21_witness :
  says_no_info ("Sorry. " +:+ "I DON'T HAVE ENOUGH INFORMATION IN THE PROVIDED CONTEXT TO ANSWER THAT QUESTION."
                +:+ " Try another page.") = true.
Proof.
  refine (proj2 X21_instructed_refusal_is_recognised "Sorry. "
            "I DON'T HAVE ENOUGH INFORMATION IN THE PROVIDED CONTEXT TO ANSWER THAT QUESTION."
            " Try another page." _).
  vm_compute. reflexivity.
Defined.

Lemma ingest_url_success (E : Env) (url : string) (force : bool) (w : World)
    (html text : string) :
  force = true \/ get_url_hash E url ∉ _ingested_urls w ->
  requests_get E (fetch_log w) url = Ok html ->
  extract_text_from_html E html = Ok text ->
  50 <= String.length text ->
  chroma_add_documents E (collection w) (page_docs E url text) = None ->
  chroma_persist E (collection w ++ page_docs E url text) = None ->
  ingest_url E url force w =
    (Ok (page_docs E url text),
     ingested url (get_url_hash E url) (page_docs E url text) w).
Proof.
  intros Hruns Hget Htext Hlong Hadd Hpersist.
  rewrite (ingest_url_runs _ _ _ _ Hruns). unfold try_except.
  rewrite (ingest_try_long_text E url w html text Hget Htext Hlong), Hadd, Hpersist.
  reflexivity.
Qed.

(** X22. Ingestion is finished before retrieval starts: when the one URL
    of a query is ingested successfully, the similarity search of the same
    run is made on the collection that already holds the chunks of that
    page, and the answer step starts from the world that ingestion left. *)
Theorem X22_search_sees_page_ingested_in_same_run (E : Env) (q url : string) (w : World)
    (html text : string) :
  extract_urls E q = [url] ->
  get_url_hash E url ∉ _ingested_urls w ->
  requests_get E (fetch_log w) url = Ok html ->
  extract_text_from_html E html = Ok text ->
  50 <= String.length text ->
  chroma_add_documents E (collection w) (page_docs E url text) = None ->
  chroma_persist E (collection w ++ page_docs E url text) = None ->
  run_chat E q w =
    rag_query_node E (entry_state E q)
      (ingested url (get_url_hash E url) (page_docs E url text) w)
  /\ similarity_search_with_score E q 5 (entry_world E q w) =
     (chroma_search E (collection w ++ page_docs E url text) q 5, entry_world E q w).
Proof.
  intros Hurls Hnew Hget Htext Hlong Hadd Hpersist.
  assert (Hentry : entry_world E q w =
                   ingested url (get_url_hash E url) (page_docs E url text) w).
  { unfold entry_world. rewrite Hurls. cbn [ingest_all fold_left].
    rewrite (ingest_url_success E url false w html text (or_intror Hnew)
               Hget Htext Hlong Hadd Hpersist). reflexivity. }
  split.
  - rewrite run_chat_entry, Hentry. reflexivity.
  - unfold similarity_search_with_score. rewrite Hentry. reflexivity.
Qed.

Lemma X22_witness :
  run_chat Fixture.E_grounded "read https://a.example/p" Fixture.w0 =
    rag_query_node Fixture.E_grounded (entry_state Fixture.E_grounded "read https://a.example/p")
      (ingested "https://a.example/p" (get_url_hash Fixture.E_grounded "https://a.example/p")
         (page_docs Fixture.E_grounded "https://a.example/p" Fixture.page) Fixture.w0)
  /\ similarity_search_with_score Fixture.E_grounded "read https://a.example/p" 5
       (entry_world Fixture.E_grounded "read https://a.example/p" Fixture.w0) =
     (chroma_search Fixture.E_grounded
        (collection Fixture.w0 ++
         page_docs Fixture.E_grounded "https://a.example/p" Fixture.page)
        "read https://a.example/p" 5,
      entry_world Fixture.E_grounded "read https://a.example/p" Fixture.w0).
Proof.
  refine (X22_search_sees_page_ingested_in_same_run Fixture.E_grounded
            "read https://a.example/p" "https://a.example/p" Fixture.w0
            Fixture.page Fixture.page _ _ eq_refl eq_refl _ eq_refl eq_refl).
  - vm_compute. reflexivity.
  - cbn. set_solver.
  - vm_compute. lia.
Defined.
